(** * UnrealLogsReader: the log ingestion and filtering engine of [src/main.cpp]

    A shallow embedding of [LogViewerState::LoadFile],
    [LogViewerState::ApplyFilters] and of the context window of
    [RenderLogViewer], followed by the properties of the engine; then of
    [ParseLogLine], [LogViewerState::ParseProperties], [CleanLogLine] and
    of the click, copy and category handlers of [RenderLogViewer], with
    their properties in the last part of the file.

    Conventions of the embedding.
    - [std::string] is [string]; [std::string::npos] is [None].
    - [int] values (record indices, counters) are [Z].  Signed overflow is
      undefined in C++ and needs more than [2^31 - 1] records, so the
      arithmetic on them is the mathematical one.
    - [size_t] hashes are [N]; [std::hash<std::string>] belongs to the
      standard library and is taken as the class [StdHash].
    - [std::set] is [gset], [std::map] is [gmap], [std::vector] is [list];
      reading a vector past its end is undefined in C++ and shows up as
      [None] in the functions that read by index.
    - An [std::ifstream] is an [option string]: [None] when [is_open()] is
      false, otherwise the text of the file.
    - [char SearchBuffer[128]] is the C string that the buffer holds; a
      [std::string] handed over as [c_str()] is read up to its first NUL.
    - [::tolower] is the one of the C locale: bytes outside [A] .. [Z] are
      left as they are. *)

From Stdlib Require Import ZArith NArith String Ascii List Lia Bool.
From stdpp Require Import base decidable countable numbers option list strings gmap sets sorting.

Set Warnings "-clear-no-such-hyp".

Local Open Scope string_scope.
Local Open Scope list_scope.
Local Open Scope Z_scope.

(** ** [std::string] operations *)

Module StdString.

(** [s.empty()] *)
Definition empty (s : string) : bool :=
  match s with EmptyString => true | String _ _ => false end.

(** Does [needle] occur in [s] at position 0? *)
Fixpoint starts_with (needle s : string) : bool :=
  match needle, s with
  | EmptyString, _ => true
  | String _ _, EmptyString => false
  | String a needle', String b s' =>
      if Ascii.eqb a b then starts_with needle' s' else false
  end.

(** [s.find(needle)]: the first position where [needle] occurs. *)
Fixpoint find (needle s : string) : option nat :=
  if starts_with needle s then Some 0%nat
  else match s with
       | EmptyString => None
       | String _ s' => S <$> find needle s'
       end.

(** [s.substr(pos)].  C++ throws for [pos > s.size()]; the callers only
    pass positions returned by [find]. *)
Fixpoint substr_from (s : string) (pos : nat) : string :=
  match pos, s with
  | O, _ => s
  | S _, EmptyString => EmptyString
  | S pos', String _ s' => substr_from s' pos'
  end.

(** The first [len] characters of [s] (all of it when it is shorter). *)
Fixpoint prefix_of_length (s : string) (len : nat) : string :=
  match len, s with
  | O, _ => EmptyString
  | S _, EmptyString => EmptyString
  | S len', String c s' => String c (prefix_of_length s' len')
  end.

(** [s.substr(pos, len)] *)
Definition substr (s : string) (pos len : nat) : string :=
  prefix_of_length (substr_from s pos) len.

(** [s.find(needle, pos)] *)
Definition find_from (needle s : string) (pos : nat) : option nat :=
  (λ p, pos + p)%nat <$> find needle (substr_from s pos).

(** [s[pos]] *)
Definition at_ (s : string) (pos : nat) : option ascii := String.get pos s.

(** [::tolower] in the C locale: only [A] .. [Z] change. *)
Definition tolower_char (c : ascii) : ascii :=
  let n := nat_of_ascii c in
  if ((65 <=? n) && (n <=? 90))%nat then ascii_of_nat (n + 32) else c.

(** [std::ranges::transform(s, s.begin(), ::tolower)] *)
Fixpoint tolower (s : string) : string :=
  match s with
  | EmptyString => EmptyString
  | String c s' => String (tolower_char c) (tolower s')
  end.

(** The lines that successive [std::getline(file, line)] calls return on
    a stream holding [s]: the text is cut at every newline, and a call
    that hits the end of the stream without reading a character fails,
    which ends the [while] loop. *)
Fixpoint getlines (s : string) : list string :=
  match s with
  | EmptyString => []
  | String c s' =>
      if Ascii.eqb c "010" then EmptyString :: getlines s'
      else match getlines s' with
           | [] => [String c EmptyString]
           | l :: ls => String c l :: ls
           end
  end.

(** Does the character [c] occur in [chars]? *)
Fixpoint contains_char (chars : string) (c : ascii) : bool :=
  match chars with
  | EmptyString => false
  | String a chars' => Ascii.eqb a c || contains_char chars' c
  end.

(** [s.find_first_not_of(chars)]: the first position whose character is
    not one of [chars]. *)
Fixpoint find_first_not_of (chars s : string) : option nat :=
  match s with
  | EmptyString => None
  | String c s' =>
      if contains_char chars c then S <$> find_first_not_of chars s'
      else Some 0%nat
  end.

(** [s.c_str()] read by a callee that takes a [const char*]: the
    characters before the first NUL. *)
Fixpoint c_str (s : string) : string :=
  match s with
  | EmptyString => EmptyString
  | String c s' =>
      if Ascii.eqb c "000" then EmptyString else String c (c_str s')
  end.

End StdString.

(** ** [std::hash<std::string>] *)

Class StdHash := std_hash : string → N.

(** One deterministic instance, 64-bit FNV-1a, used to run the engine on
    concrete inputs. *)
Definition fnv1a_step (h : N) (c : ascii) : N :=
  ((N.lxor h (N_of_ascii c)) * 1099511628211 mod 2 ^ 64)%N.

Fixpoint fnv1a_from (h : N) (s : string) : N :=
  match s with
  | EmptyString => h
  | String c s' => fnv1a_from (fnv1a_step h c) s'
  end.

Definition fnv1a : StdHash := fnv1a_from 14695981039346656037%N.

(** ** Data structures *)

Inductive LogLevel := Display | Warning | Error.

#[global] Instance LogLevel_eq_dec : EqDecision LogLevel.
Proof. solve_decision. Defined.

Definition LogLevel_to_nat (l : LogLevel) : nat :=
  match l with Display => 0 | Warning => 1 | Error => 2 end.

Definition LogLevel_of_nat (n : nat) : option LogLevel :=
  match n with
  | 0%nat => Some Display
  | 1%nat => Some Warning
  | 2%nat => Some Error
  | _ => None
  end.

#[global] Program Instance LogLevel_countable : Countable LogLevel :=
  inj_countable LogLevel_to_nat LogLevel_of_nat _.
Next Obligation. by intros []. Qed.

Record LogEntry := {
  FullText : string;
  Category : string;
  Level : LogLevel;
  ContentHash : N;
  IsHeader : bool;
  LogIndex : Z
}.

Record LogViewerState := {
  AllLogs : list LogEntry;
  FilteredIndices : list Z;
  LevelsCount : gmap LogLevel Z;
  SelectedIndices : gset Z;
  LastClickedIndex : Z;
  ShowErrors : bool;
  ShowWarnings : bool;
  ShowDisplay : bool;
  SearchBuffer : string;
  SelectedCategory : string;
  UniqueCategories : gset string;
  ShowDuplicates : bool
}.

(** The default member initialisers of [LogViewerState]: the value of the
    global [g_LogState] at start-up. *)
Definition g_LogState : LogViewerState := {|
  AllLogs := [];
  FilteredIndices := [];
  LevelsCount := ∅;
  SelectedIndices := ∅;
  LastClickedIndex := -1;
  ShowErrors := true;
  ShowWarnings := true;
  ShowDisplay := true;
  SearchBuffer := EmptyString;
  SelectedCategory := "All";
  UniqueCategories := ∅;
  ShowDuplicates := true
|}.

(** Field assignments. *)
Definition set_ShowErrors (b : bool) (st : LogViewerState) : LogViewerState :=
  {| AllLogs := AllLogs st; FilteredIndices := FilteredIndices st;
     LevelsCount := LevelsCount st; SelectedIndices := SelectedIndices st;
     LastClickedIndex := LastClickedIndex st;
     ShowErrors := b; ShowWarnings := ShowWarnings st;
     ShowDisplay := ShowDisplay st; SearchBuffer := SearchBuffer st;
     SelectedCategory := SelectedCategory st;
     UniqueCategories := UniqueCategories st;
     ShowDuplicates := ShowDuplicates st |}.

Definition set_ShowWarnings (b : bool) (st : LogViewerState) : LogViewerState :=
  {| AllLogs := AllLogs st; FilteredIndices := FilteredIndices st;
     LevelsCount := LevelsCount st; SelectedIndices := SelectedIndices st;
     LastClickedIndex := LastClickedIndex st;
     ShowErrors := ShowErrors st; ShowWarnings := b;
     ShowDisplay := ShowDisplay st; SearchBuffer := SearchBuffer st;
     SelectedCategory := SelectedCategory st;
     UniqueCategories := UniqueCategories st;
     ShowDuplicates := ShowDuplicates st |}.

Definition set_ShowDisplay (b : bool) (st : LogViewerState) : LogViewerState :=
  {| AllLogs := AllLogs st; FilteredIndices := FilteredIndices st;
     LevelsCount := LevelsCount st; SelectedIndices := SelectedIndices st;
     LastClickedIndex := LastClickedIndex st;
     ShowErrors := ShowErrors st; ShowWarnings := ShowWarnings st;
     ShowDisplay := b; SearchBuffer := SearchBuffer st;
     SelectedCategory := SelectedCategory st;
     UniqueCategories := UniqueCategories st;
     ShowDuplicates := ShowDuplicates st |}.

Definition set_SearchBuffer (s : string) (st : LogViewerState) : LogViewerState :=
  {| AllLogs := AllLogs st; FilteredIndices := FilteredIndices st;
     LevelsCount := LevelsCount st; SelectedIndices := SelectedIndices st;
     LastClickedIndex := LastClickedIndex st;
     ShowErrors := ShowErrors st; ShowWarnings := ShowWarnings st;
     ShowDisplay := ShowDisplay st; SearchBuffer := s;
     SelectedCategory := SelectedCategory st;
     UniqueCategories := UniqueCategories st;
     ShowDuplicates := ShowDuplicates st |}.

Definition set_SelectedCategory (c : string) (st : LogViewerState) : LogViewerState :=
  {| AllLogs := AllLogs st; FilteredIndices := FilteredIndices st;
     LevelsCount := LevelsCount st; SelectedIndices := SelectedIndices st;
     LastClickedIndex := LastClickedIndex st;
     ShowErrors := ShowErrors st; ShowWarnings := ShowWarnings st;
     ShowDisplay := ShowDisplay st; SearchBuffer := SearchBuffer st;
     SelectedCategory := c;
     UniqueCategories := UniqueCategories st;
     ShowDuplicates := ShowDuplicates st |}.

Definition set_ShowDuplicates (b : bool) (st : LogViewerState) : LogViewerState :=
  {| AllLogs := AllLogs st; FilteredIndices := FilteredIndices st;
     LevelsCount := LevelsCount st; SelectedIndices := SelectedIndices st;
     LastClickedIndex := LastClickedIndex st;
     ShowErrors := ShowErrors st; ShowWarnings := ShowWarnings st;
     ShowDisplay := ShowDisplay st; SearchBuffer := SearchBuffer st;
     SelectedCategory := SelectedCategory st;
     UniqueCategories := UniqueCategories st;
     ShowDuplicates := b |}.

(** [LevelsCount[level]]: a missing key reads as the value-initialised 0. *)
Definition level_count (m : gmap LogLevel Z) (level : LogLevel) : Z :=
  default 0 (m !! level).

(** ** [LogViewerState::ApplyFilters] *)

(** [pos != std::string::npos] *)
Definition found (pos : option nat) : bool :=
  match pos with Some _ => true | None => false end.

(** The block of "standard filters" of the loop body: [false] where the
    source runs [continue]. *)
Definition StandardFilters (st : LogViewerState) (search : string)
    (log : LogEntry) : bool :=
  if bool_decide (Level log = Error) && negb (ShowErrors st) then false
  else if bool_decide (Level log = Warning) && negb (ShowWarnings st) then false
  else if bool_decide (Level log = Display) && negb (ShowDisplay st) then false
  else if negb (String.eqb (SelectedCategory st) "All")
          && negb (String.eqb (Category log) (SelectedCategory st)) then false
  else if negb (StdString.empty search)
          && negb (found (StdString.find search
                            (StdString.tolower (FullText log)))) then false
  else true.

(** The variables of the [for] loop: the counter [i], [seenHashes],
    [isSkippingDuplicates] and the indices pushed so far. *)
Record FilterLoop := {
  next_i : Z;
  seenHashes : gset N;
  isSkippingDuplicates : bool;
  pushed : list Z
}.

Definition FilterLoop_init : FilterLoop :=
  {| next_i := 0; seenHashes := ∅; isSkippingDuplicates := false; pushed := [] |}.

(** One iteration, on [log = AllLogs[i]]. *)
Definition ApplyFilters_step (st : LogViewerState) (search : string)
    (s : FilterLoop) (log : LogEntry) : FilterLoop :=
  let i := next_i s in
  let '(seen, skipping) :=
    if IsHeader log then
      if negb (ShowDuplicates st)
         && bool_decide (ContentHash log ∈ seenHashes s)
      then (seenHashes s, true)
      else ({[ContentHash log]} ∪ seenHashes s, false)
    else (seenHashes s, isSkippingDuplicates s) in
  {| next_i := i + 1;
     seenHashes := seen;
     isSkippingDuplicates := skipping;
     pushed := if skipping then pushed s
               else if StandardFilters st search log then pushed s ++ [i]
               else pushed s |}.

(** The loop variables after the records [logs] have been visited. *)
Definition ApplyFilters_loop (st : LogViewerState) (logs : list LogEntry)
    : FilterLoop :=
  fold_left (ApplyFilters_step st (StdString.tolower (SearchBuffer st)))
            logs FilterLoop_init.

Definition ApplyFilters (st : LogViewerState) : LogViewerState :=
  {| AllLogs := AllLogs st;
     FilteredIndices := pushed (ApplyFilters_loop st (AllLogs st));
     LevelsCount := LevelsCount st;
     SelectedIndices := ∅;
     LastClickedIndex := -1;
     ShowErrors := ShowErrors st; ShowWarnings := ShowWarnings st;
     ShowDisplay := ShowDisplay st; SearchBuffer := SearchBuffer st;
     SelectedCategory := SelectedCategory st;
     UniqueCategories := UniqueCategories st;
     ShowDuplicates := ShowDuplicates st |}.

(** ** [LogViewerState::LoadFile] *)

Section Ingestion.
Context `{StdHash}.

(** The level of a header line: the [if] / [else if] over the markers. *)
Definition detect_level (line : string) : LogLevel :=
  if found (StdString.find "Error:" line)
     || found (StdString.find "Critical:" line)
     || found (StdString.find "Fatal:" line) then Error
  else if found (StdString.find "Warning:" line) then Warning
  else Display.

(** [c == ']' || c == ' ' || c == ':'] on [line[catStart-1]]. *)
Definition is_tag_separator (c : option ascii) : bool :=
  match c with
  | Some c => Ascii.eqb c "]" || Ascii.eqb c " " || Ascii.eqb c ":"
  | None => false
  end.

(** The category of a header line. *)
Definition detect_category (line : string) : string :=
  match StdString.find "Log" line with
  | Some catStart =>
      if (0 <? catStart)%nat
         && is_tag_separator (StdString.at_ line (catStart - 1))
      then match StdString.find_from ":" line catStart with
           | Some catEnd => StdString.substr line catStart (catEnd - catStart)
           | None => "General"
           end
      else "General"
  | None => "General"
  end.

(** [(catStart != npos) ? line.substr(catStart) : line] *)
Definition textToHash (line : string) : string :=
  match StdString.find "Log" line with
  | Some catStart => StdString.substr_from line catStart
  | None => line
  end.

(** [!line.empty() && line[0] == '['] *)
Definition is_header_line (line : string) : bool :=
  negb (StdString.empty line)
  && match StdString.at_ line 0 with
     | Some c => Ascii.eqb c "["
     | None => false
     end.

Definition header_entry (line : string) (CurrentIndex : Z) : LogEntry :=
  {| FullText := line;
     Category := detect_category line;
     Level := detect_level line;
     ContentHash := std_hash (textToHash line);
     IsHeader := true;
     LogIndex := CurrentIndex |}.

Definition continuation_entry (line : string) (currentLevel : LogLevel)
    (currentCategory : string) (CurrentIndex : Z) : LogEntry :=
  {| FullText := "      " +:+ line;
     Category := currentCategory;
     Level := currentLevel;
     ContentHash := 0;
     IsHeader := false;
     LogIndex := CurrentIndex |}.

(** [AllLogs.push_back(entry); LevelsCount[entry.Level]++;
    UniqueCategories.insert(entry.Category);] *)
Definition push_entry (entry : LogEntry) (st : LogViewerState) : LogViewerState :=
  {| AllLogs := AllLogs st ++ [entry];
     FilteredIndices := FilteredIndices st;
     LevelsCount :=
       <[Level entry := level_count (LevelsCount st) (Level entry) + 1]>
         (LevelsCount st);
     SelectedIndices := SelectedIndices st;
     LastClickedIndex := LastClickedIndex st;
     ShowErrors := ShowErrors st; ShowWarnings := ShowWarnings st;
     ShowDisplay := ShowDisplay st; SearchBuffer := SearchBuffer st;
     SelectedCategory := SelectedCategory st;
     UniqueCategories := {[Category entry]} ∪ UniqueCategories st;
     ShowDuplicates := ShowDuplicates st |}.

(** The [while (std::getline(file, line))] loop over the lines still to be
    read, with its local variables. *)
Fixpoint LoadFile_loop (lines : list string) (currentLevel : LogLevel)
    (currentCategory : string) (CurrentIndex : Z) (st : LogViewerState)
    : LogViewerState :=
  match lines with
  | [] => st
  | line :: rest =>
      if found (StdString.find "Warning/Error Summary" line) then st
      else if StdString.empty line then
        LoadFile_loop rest currentLevel currentCategory CurrentIndex st
      else
        let CurrentIndex := CurrentIndex + 1 in
        if is_header_line line then
          let entry := header_entry line CurrentIndex in
          LoadFile_loop rest (Level entry) (Category entry) CurrentIndex
            (push_entry entry st)
        else
          let entry :=
            continuation_entry line currentLevel currentCategory CurrentIndex in
          LoadFile_loop rest currentLevel currentCategory CurrentIndex
            (push_entry entry st)
  end.

(** [AllLogs.clear(); UniqueCategories.clear();
    UniqueCategories.insert("All");] *)
Definition clear_logs (st : LogViewerState) : LogViewerState :=
  {| AllLogs := [];
     FilteredIndices := FilteredIndices st;
     LevelsCount := LevelsCount st;
     SelectedIndices := SelectedIndices st;
     LastClickedIndex := LastClickedIndex st;
     ShowErrors := ShowErrors st; ShowWarnings := ShowWarnings st;
     ShowDisplay := ShowDisplay st; SearchBuffer := SearchBuffer st;
     SelectedCategory := SelectedCategory st;
     UniqueCategories := {["All"]};
     ShowDuplicates := ShowDuplicates st |}.

Definition LoadFile (st : LogViewerState) (file : option string)
    : LogViewerState :=
  let st := clear_logs st in
  match file with
  | None => st
  | Some text =>
      ApplyFilters
        (LoadFile_loop (StdString.getlines text) Display "General" (-1) st)
  end.

End Ingestion.

(** ** The parts of [RenderLogViewer] that read the engine state *)

(** The rows of the main list: row [i] reads
    [AllLogs[FilteredIndices[i]]]. *)
Definition VisibleRows (st : LogViewerState) : list (option LogEntry) :=
  map (λ originalIndex, AllLogs st !! Z.to_nat originalIndex)
      (FilteredIndices st).

(** The context window around [g_LastClickedIndex]: the pairs [(i,
    AllLogs[i])] of the [for] loop, or [None] when the guard fails and the
    placeholder text is shown.  In the guard the [int] is compared with a
    [size_t], hence converted to 64 bits unsigned. *)
Definition ContextWindow (st : LogViewerState) (g_LastClickedIndex : Z)
    : option (list (Z * option LogEntry)) :=
  let size := Z.of_nat (length (AllLogs st)) in
  if negb (g_LastClickedIndex =? -1)
     && (g_LastClickedIndex mod 2 ^ 64 <? size)
  then
    let startIdx := Z.max 0 (g_LastClickedIndex - 5) in
    let endIdx := Z.min size (g_LastClickedIndex + 6) in
    Some (map (λ i, (i, AllLogs st !! Z.to_nat i))
              (seqZ startIdx (endIdx - startIdx)))
  else None.

(** ** The free functions [ParseLogLine] and [CleanLogLine], and
    [LogViewerState::ParseProperties] *)

(** [ParseLogLine(line, entry)]: the fields it does not assign keep the
    values of [entry]. *)
Definition ParseLogLine (line : string) (entry : LogEntry) : LogEntry :=
  {| FullText := line;
     Category :=
       match StdString.find "]Log" line with
       | Some catStart =>
           let catStart := S catStart in
           match StdString.find_from ":" line catStart with
           | Some catEnd => StdString.substr line catStart (catEnd - catStart)
           | None => "General"
           end
       | None => "General"
       end;
     Level :=
       if found (StdString.find "Error:" line)
          || found (StdString.find "Critical:" line) then Error
       else if found (StdString.find "Warning:" line) then Warning
       else Display;
     ContentHash := ContentHash entry;
     IsHeader := IsHeader entry;
     LogIndex := LogIndex entry |}.

(** [ParseProperties(entry)]: level and category are derived again from
    [entry.FullText]. *)
Definition ParseProperties (entry : LogEntry) : LogEntry :=
  {| FullText := FullText entry;
     Category :=
       match StdString.find "Log" (FullText entry) with
       | Some catStart =>
           if (0 <? catStart)%nat
              && match StdString.at_ (FullText entry) (catStart - 1) with
                 | Some c => Ascii.eqb c "]" || Ascii.eqb c " " || Ascii.eqb c ":"
                 | None => false
                 end
           then match StdString.find_from ":" (FullText entry) catStart with
                | Some catEnd =>
                    StdString.substr (FullText entry) catStart (catEnd - catStart)
                | None => "General"
                end
           else "General"
       | None => "General"
       end;
     Level :=
       if found (StdString.find "Error:" (FullText entry))
          || found (StdString.find "Critical:" (FullText entry))
          || found (StdString.find "Fatal:" (FullText entry)) then Error
       else if found (StdString.find "Warning:" (FullText entry)) then Warning
       else Display;
     ContentHash := ContentHash entry;
     IsHeader := IsHeader entry;
     LogIndex := LogIndex entry |}.

(** [CleanLogLine(line)] *)
Definition CleanLogLine (line : string) : string :=
  match StdString.find "]" line with
  | Some endBracket =>
      if (endBracket <? 40)%nat then
        let text := StdString.substr_from line (endBracket + 1) in
        match StdString.find_first_not_of " >" text with
        | Some firstChar => StdString.substr_from text firstChar
        | None => text
        end
      else line
  | None => line
  end.

(** ** The event handlers of [RenderLogViewer] *)

(** [v[i]] for an [int] index: [None] outside the vector. *)
Definition vector_at {A} (v : list A) (i : Z) : option A :=
  if i <? 0 then None else v !! Z.to_nat i.

(** The record that row [i] of the list draws:
    [AllLogs[FilteredIndices[i]]]. *)
Definition row_log (st : LogViewerState) (i : Z) : option LogEntry :=
  match vector_at (FilteredIndices st) i with
  | Some originalIndex => vector_at (AllLogs st) originalIndex
  | None => None
  end.

Definition set_selection (selected : gset Z) (last : Z) (st : LogViewerState)
    : LogViewerState :=
  {| AllLogs := AllLogs st; FilteredIndices := FilteredIndices st;
     LevelsCount := LevelsCount st; SelectedIndices := selected;
     LastClickedIndex := last;
     ShowErrors := ShowErrors st; ShowWarnings := ShowWarnings st;
     ShowDisplay := ShowDisplay st; SearchBuffer := SearchBuffer st;
     SelectedCategory := SelectedCategory st;
     UniqueCategories := UniqueCategories st;
     ShowDuplicates := ShowDuplicates st |}.

(** [for (int n = start; n <= end; n++) SelectedIndices.insert(n);] on the
    cleared set. *)
Definition insert_range (start end_ : Z) : gset Z :=
  fold_left (λ selected n, {[n]} ∪ selected) (seqZ start (end_ - start + 1)) ∅.

(** A click on row [i] of the list, with the state of the Ctrl and Shift
    keys: the new engine state and the new value of the global
    [g_LastClickedIndex].  [None] when row [i] does not read a record. *)
Definition ClickRow (st : LogViewerState) (g_LastClickedIndex : Z) (i : Z)
    (KeyCtrl KeyShift : bool) : option (LogViewerState * Z) :=
  match row_log st i with
  | None => None
  | Some log =>
      let isSelected := bool_decide (i ∈ SelectedIndices st) in
      if KeyCtrl then
        Some (set_selection
                (if isSelected then SelectedIndices st ∖ {[i]}
                 else {[i]} ∪ SelectedIndices st)
                i st,
              g_LastClickedIndex)
      else if KeyShift && negb (LastClickedIndex st =? -1) then
        let start := Z.min (LastClickedIndex st) i in
        let end_ := Z.max (LastClickedIndex st) i in
        Some (set_selection (insert_range start end_) (LastClickedIndex st) st,
              g_LastClickedIndex)
      else
        Some (set_selection ({[i]} ∪ ∅) i st, LogIndex log)
  end.

(** The context-menu entry "Copy" of a row: the text put on the
    clipboard, [ImGui::SetClipboardText(text.c_str())]. *)
Definition CopyRow (log : LogEntry) : string :=
  StdString.c_str
    ("```" +:+ String "010" (CleanLogLine (FullText log) +:+ String "010" "```")).

(** The context-menu entry "Filter to this Category" of a row, with the
    [if (!newCategoryFilter.empty())] that follows the list. *)
Definition FilterToCategory (st : LogViewerState) (log : LogEntry)
    : LogViewerState :=
  let st := set_SelectedCategory (Category log) st in
  let newCategoryFilter := Category log in
  if negb (StdString.empty newCategoryFilter)
  then ApplyFilters (set_SelectedCategory newCategoryFilter st)
  else st.

(** What Ctrl+C does to the clipboard.  The text is handed over as
    [clipboardText.c_str()], so the clipboard receives it up to its first
    NUL. *)
Inductive CopyOutcome :=
  | ClipboardUntouched
  | ClipboardSet (text : string)
  | ReadOutOfBounds.

(** The iteration order of a [std::set<int>]: ascending. *)
Definition ascending (s : gset Z) : list Z := merge_sort Z.le (elements s).

(** The body of the loop over [SelectedIndices]: the text appended for
    [idx], [None] when [AllLogs[originalIndex]] is out of bounds. *)
Definition copy_line (st : LogViewerState) (idx : Z) : option string :=
  if (0 <=? idx) && (idx <? Z.of_nat (length (FilteredIndices st))) then
    match row_log st idx with
    | Some log => Some (CleanLogLine (FullText log +:+ String "010" EmptyString))
    | None => None
    end
  else Some EmptyString.

Fixpoint copy_lines (st : LogViewerState) (indices : list Z)
    (clipboardText : string) : option string :=
  match indices with
  | [] => Some clipboardText
  | idx :: rest =>
      match copy_line st idx with
      | Some line => copy_lines st rest (clipboardText +:+ line)
      | None => None
      end
  end.

(** The Ctrl+C handler. *)
Definition CopySelection (st : LogViewerState) : CopyOutcome :=
  if bool_decide (SelectedIndices st = ∅) then ClipboardUntouched
  else
    match copy_lines st (ascending (SelectedIndices st))
                     ("```" +:+ String "010" EmptyString) with
    | Some clipboardText =>
        ClipboardSet (StdString.c_str (clipboardText +:+ "```"))
    | None => ReadOutOfBounds
    end.

(** ** Vocabulary of the statements *)

(** The number of lines read before the loop of [LoadFile] breaks: the
    position of the first line that contains the summary marker, or the
    number of lines when there is none. *)
Definition summary_position (lines : list string) : nat :=
  match list_find (λ l, found (StdString.find "Warning/Error Summary" l) = true)
                  lines with
  | Some (m, _) => m
  | None => length lines
  end.

(** The non-blank lines before the summary marker. *)
Definition kept_lines (lines : list string) : list string :=
  filter (λ l, l ≠ EmptyString) (take (summary_position lines) lines).

(** How many records of [logs] have the level [level]. *)
Definition count_level (level : LogLevel) (logs : list LogEntry) : Z :=
  Z.of_nat (length (filter (λ e, Level e = level) logs)).

(** The level and category that a continuation record appended after
    [logs] receives: those of the last header of [logs], or the initial
    values of [currentLevel] and [currentCategory]. *)
Definition header_context (logs : list LogEntry) : LogLevel * string :=
  match last (filter (λ e, IsHeader e = true) logs) with
  | Some h => (Level h, Category h)
  | None => (Display, "General")
  end.

(** Each kept line yields one record, in order: a header keeps the line as
    its text, a continuation indents it. *)
Definition record_of_line (e : LogEntry) (l : string) : Prop :=
  IsHeader e = is_header_line l ∧
  FullText e = (if is_header_line l then l else "      " +:+ l).

(** Every continuation record of [logs] carries the context of the records
    before it. *)
Definition continuation_ok (logs : list LogEntry) : Prop :=
  ∀ (j : nat) (r : LogEntry),
    logs !! j = Some r → IsHeader r = false →
    (Level r, Category r) = header_context (take j logs).

(** What [LoadFile] stores in a header record, as a function of its text. *)
Definition header_ok `{StdHash} (e : LogEntry) : Prop :=
  IsHeader e = true →
  ContentHash e = std_hash (textToHash (FullText e)) ∧
  Category e = detect_category (FullText e) ∧
  Level e = detect_level (FullText e).

(** Record [k] of [logs] is shown: the skip flag is off once the loop has
    visited it, and it passes the standard filters. *)
Definition shown (st : LogViewerState) (logs : list LogEntry) (k : nat) : bool :=
  match logs !! k with
  | Some r =>
      negb (isSkippingDuplicates (ApplyFilters_loop st (take (S k) logs)))
      && StandardFilters st (StdString.tolower (SearchBuffer st)) r
  | None => false
  end.

(** One filter is turned off between two filter states: a severity toggle
    is cleared, the category goes from ["All"] to a category, the search
    text goes from empty to a text, or duplicate suppression is enabled
    ([ShowDuplicates] cleared). *)
Inductive turned_off : LogViewerState → LogViewerState → Prop :=
  | off_errors st : turned_off st (set_ShowErrors false st)
  | off_warnings st : turned_off st (set_ShowWarnings false st)
  | off_display st : turned_off st (set_ShowDisplay false st)
  | narrow_category st c :
      SelectedCategory st = "All" → turned_off st (set_SelectedCategory c st)
  | start_search st s :
      SearchBuffer st = EmptyString → turned_off st (set_SearchBuffer s st)
  | suppress_duplicates st : turned_off st (set_ShowDuplicates false st).

(** The categories that [LoadFile] assigns: the default, or a tag that
    starts with ["Log"] and holds no colon. *)
Definition category_shape (c : string) : Prop :=
  c = "General" ∨
  (StdString.starts_with "Log" c = true ∧ StdString.find ":" c = None).

(** Every index of the view is a position of the record vector. *)
Definition view_in_bounds (st : LogViewerState) : Prop :=
  ∀ o, o ∈ FilteredIndices st → 0 ≤ o < Z.of_nat (length (AllLogs st)).

(** The lines that Ctrl+C appends for the records [rows], in order. *)
Definition copy_body (rows : list LogEntry) : string :=
  fold_right (λ log body,
                CleanLogLine (FullText log +:+ String "010" EmptyString) +:+ body)
             EmptyString rows.

(** A text without the newline character, and a text without NUL. *)
Definition newline_free (l : string) : Prop :=
  Forall (λ c, c ≠ "010"%char) (list_ascii_of_string l).

Definition nul_free (l : string) : Prop :=
  Forall (λ c, c ≠ "000"%char) (list_ascii_of_string l).

(** The text of a file whose lines are [lines]: the lines with a newline
    between each two.  (A final newline is a last line that is empty.) *)
Fixpoint join_lines (lines : list string) : string :=
  match lines with
  | [] => EmptyString
  | l :: rest =>
      match rest with
      | [] => l
      | _ :: _ => l +:+ String "010" (join_lines rest)
      end
  end.

(** Following the words of the specification: a blank line is a line that
    holds nothing but white space (space, tab, carriage return, form feed,
    vertical tab); the non-blank lines before the summary marker. *)
Definition is_white_space (c : ascii) : bool :=
  Ascii.eqb c " " || Ascii.eqb c "009" || Ascii.eqb c "013"
  || Ascii.eqb c "012" || Ascii.eqb c "011".

Fixpoint is_blank (l : string) : bool :=
  match l with
  | EmptyString => true
  | String c l' => is_white_space c && is_blank l'
  end.

Definition non_blank_lines (lines : list string) : list string :=
  filter (λ l, is_blank l = false) (take (summary_position lines) lines).

(** The engine state once a frame has been drawn: the two
    [LevelsCount[...]] reads of the top bar have inserted their keys. *)
Definition drawn_state : LogViewerState :=
  {| AllLogs := []; FilteredIndices := [];
     LevelsCount := <[Error := 0]> (<[Warning := 0]> ∅);
     SelectedIndices := ∅; LastClickedIndex := -1;
     ShowErrors := true; ShowWarnings := true; ShowDisplay := true;
     SearchBuffer := EmptyString; SelectedCategory := "All";
     UniqueCategories := ∅; ShowDuplicates := true |}.

(** ** Running the model *)

Definition newline : string := String "010" EmptyString.

(** A log with a repeated header, a blank line, and text after the summary
    marker. *)
Definition sample_text : string :=
  "[0] LogCook: Error: bad texture" +:+ newline +:+
  "   continuation info" +:+ newline +:+
  newline +:+
  "[1] LogCook: Error: bad texture" +:+ newline +:+
  "   again" +:+ newline +:+
  "[2] LogTemp: Warning: slow" +:+ newline +:+
  "--- Warning/Error Summary ---" +:+ newline +:+
  "[3] LogTemp: never read" +:+ newline.

(** A log that starts with a line that follows no header. *)
Definition orphan_text : string :=
  "no header yet" +:+ newline +:+ "[0] LogInit: Display: started".

(** The three lines of the example of the specification. *)
Definition example_text : string :=
  "[0] LogCook: Error: bad texture" +:+ newline +:+
  "   continuation info" +:+ newline +:+
  "[1] LogCook: Error: bad texture".

Definition sample_state : LogViewerState :=
  LoadFile (H := fnv1a) g_LogState (Some sample_text).

(** A state with [n] records, for the context window. *)
Definition numbered_state (n : nat) : LogViewerState :=
  LoadFile (H := fnv1a) g_LogState
    (Some (fold_right (λ _ acc, "[x] LogTemp: line" +:+ newline +:+ acc) EmptyString (seq 0 n))).

(** * Properties *)

(** ** The embedding on concrete inputs *)

Example getlines_final_newline :
  StdString.getlines ("a" +:+ newline +:+ newline +:+ "b" +:+ newline)
  = ["a"; EmptyString; "b"].
Proof. reflexivity. Qed.

Example getlines_no_final_newline :
  StdString.getlines ("a" +:+ newline +:+ "b") = ["a"; "b"].
Proof. reflexivity. Qed.

Example find_first_occurrence :
  StdString.find "Log" "[0] LogCook: LogTemp" = Some 4%nat ∧
  StdString.find_from ":" "[0] LogCook: LogTemp" 4 = Some 11%nat ∧
  StdString.find "Log" "[0] nothing" = None.
Proof. by vm_compute. Qed.

Example detect_category_cases :
  detect_category "[0] LogCook: Error: bad texture" = "LogCook" ∧
  detect_category "[0]LogTemp: x" = "LogTemp" ∧
  detect_category "[0] xLog: a" = "General" ∧
  detect_category "[0] Log end" = "General" ∧
  detect_category "[0] plain" = "General".
Proof. by vm_compute. Qed.

Example detect_level_cases :
  detect_level "[0] LogCook: Error: bad" = Error ∧
  detect_level "[0] LogCook: Fatal: Warning: bad" = Error ∧
  detect_level "[0] LogCook: Warning: slow" = Warning ∧
  detect_level "[0] LogCook: error: lower case" = Display.
Proof. by vm_compute. Qed.

Example tolower_ascii :
  StdString.tolower "ERROR: [Az] @{`" = "error: [az] @{`".
Proof. reflexivity. Qed.

(** The published test vector of 64-bit FNV-1a for the one-letter text. *)
Example fnv1a_vector : fnv1a "a" = 12638187200555641996%N.
Proof. by vm_compute. Qed.

Example sample_records :
  map (λ e, (LogIndex e, Category e, Level e, IsHeader e)) (AllLogs sample_state)
  = [(0, "LogCook", Error, true); (1, "LogCook", Error, false);
     (2, "LogCook", Error, true); (3, "LogCook", Error, false);
     (4, "LogTemp", Warning, true)].
Proof. by vm_compute. Qed.

(** ** Ingestion *)

Lemma filter_none {A} (P : A → Prop) `{∀ x, Decision (P x)} (l : list A) :
  (∀ x, x ∈ l → ¬ P x) → filter P l = [].
Proof.
  induction l as [|x l IH]; intros Hl; [done|].
  rewrite filter_cons_False by (apply Hl; left).
  apply IH. intros y Hy. apply Hl. by right.
Qed.

Lemma empty_true_iff (s : string) : StdString.empty s = true ↔ s = EmptyString.
Proof. destruct s; simpl; split; congruence. Qed.

Lemma summary_position_cons (l : string) (ls : list string) :
  summary_position (l :: ls) =
    if found (StdString.find "Warning/Error Summary" l) then 0%nat
    else S (summary_position ls).
Proof.
  unfold summary_position. cbn [list_find].
  destruct (found (StdString.find "Warning/Error Summary" l)) eqn:Hm.
  - rewrite decide_True by done. done.
  - rewrite decide_False by congruence.
    destruct (list_find _ ls) as [[m x]|]; done.
Qed.

Lemma kept_lines_cons (l : string) (ls : list string) :
  kept_lines (l :: ls) =
    if found (StdString.find "Warning/Error Summary" l) then []
    else if StdString.empty l then kept_lines ls
    else l :: kept_lines ls.
Proof.
  unfold kept_lines. rewrite summary_position_cons.
  destruct (found _); [done|]. cbn [take].
  destruct (StdString.empty l) eqn:He.
  - apply empty_true_iff in He. by rewrite filter_cons_False by tauto.
  - rewrite filter_cons_True; [done|].
    intros ->. by simpl in He.
Qed.

Section IngestionFacts.
Context `{StdHash}.

Lemma LoadFile_Some_AllLogs (st : LogViewerState) (text : string) :
  AllLogs (LoadFile st (Some text)) =
  AllLogs (LoadFile_loop (StdString.getlines text) Display "General" (-1)
             (clear_logs st)).
Proof. reflexivity. Qed.

Lemma LoadFile_loop_indices lines lvl cat idx st :
  LogIndex <$> AllLogs (LoadFile_loop lines lvl cat idx st) =
  (LogIndex <$> AllLogs st) ++ seqZ (idx + 1) (Z.of_nat (length (kept_lines lines))).
Proof.
  revert lvl cat idx st.
  induction lines as [|l ls IH]; intros lvl cat idx st.
  { simpl. by rewrite app_nil_r. }
  rewrite kept_lines_cons. cbn [LoadFile_loop].
  destruct (found _); [by rewrite app_nil_r|].
  destruct (StdString.empty l); [apply IH|].
  assert (∀ e : LogEntry, LogIndex e = idx + 1 →
    LogIndex <$> AllLogs (LoadFile_loop ls (Level e) (Category e) (idx + 1)
                            (push_entry e st)) =
    (LogIndex <$> AllLogs st)
      ++ seqZ (idx + 1) (Z.of_nat (length (l :: kept_lines ls)))) as Hstep.
  { intros e He. rewrite IH. cbn [push_entry AllLogs length].
    rewrite fmap_app, <- app_assoc. f_equal. cbn [fmap list_fmap app].
    rewrite He, (seqZ_cons (idx + 1)) by lia. do 2 f_equal; lia. }
  destruct (is_header_line l).
  - by apply (Hstep (header_entry l (idx + 1))).
  - by apply (Hstep (continuation_entry l lvl cat (idx + 1))).
Qed.

Lemma LoadFile_loop_lines lines lvl cat idx st ls0 :
  Forall2 record_of_line (AllLogs st) ls0 →
  Forall2 record_of_line (AllLogs (LoadFile_loop lines lvl cat idx st))
          (ls0 ++ kept_lines lines).
Proof.
  revert lvl cat idx st ls0.
  induction lines as [|l ls IH]; intros lvl cat idx st ls0 Hst.
  { simpl. by rewrite app_nil_r. }
  rewrite kept_lines_cons. cbn [LoadFile_loop].
  destruct (found _); [by rewrite app_nil_r|].
  destruct (StdString.empty l); [by apply IH|].
  rewrite (cons_middle l ls0), app_assoc.
  destruct (is_header_line l) eqn:Hh; apply IH; cbn [push_entry AllLogs];
    (apply Forall2_app; [done|]); repeat constructor; simpl; by rewrite Hh.
Qed.

Lemma header_context_snoc (logs : list LogEntry) (e : LogEntry) :
  header_context (logs ++ [e]) =
    if IsHeader e then (Level e, Category e) else header_context logs.
Proof.
  unfold header_context. rewrite filter_app.
  destruct (IsHeader e) eqn:He.
  - rewrite (filter_cons_True _ e []) by done. by rewrite filter_nil, last_snoc.
  - rewrite (filter_cons_False _ e []) by congruence.
    by rewrite filter_nil, app_nil_r.
Qed.

Lemma continuation_ok_snoc (logs : list LogEntry) (e : LogEntry) :
  continuation_ok logs →
  (IsHeader e = false → (Level e, Category e) = header_context logs) →
  continuation_ok (logs ++ [e]).
Proof.
  intros Hok He j r Hj Hr.
  apply lookup_app_Some in Hj as [Hj|[Hlen Hj]].
  - rewrite take_app_le by (apply lookup_lt_Some in Hj; lia). by apply Hok.
  - apply list_lookup_singleton_Some in Hj as [Hj ->].
    replace j with (length logs) by lia.
    rewrite take_app_length. by apply He.
Qed.

Lemma LoadFile_loop_context lines lvl cat idx st :
  (lvl, cat) = header_context (AllLogs st) →
  continuation_ok (AllLogs st) →
  continuation_ok (AllLogs (LoadFile_loop lines lvl cat idx st)).
Proof.
  revert lvl cat idx st.
  induction lines as [|l ls IH]; intros lvl cat idx st Hctx Hok; [done|].
  cbn [LoadFile_loop].
  destruct (found _); [done|].
  destruct (StdString.empty l); [by apply IH|].
  destruct (is_header_line l); apply IH; cbn [push_entry AllLogs].
  - by rewrite header_context_snoc.
  - by apply continuation_ok_snoc.
  - by rewrite header_context_snoc.
  - by apply continuation_ok_snoc.
Qed.

Lemma LoadFile_loop_headers lines lvl cat idx st :
  Forall header_ok (AllLogs st) →
  Forall header_ok (AllLogs (LoadFile_loop lines lvl cat idx st)).
Proof.
  revert lvl cat idx st.
  induction lines as [|l ls IH]; intros lvl cat idx st Hst; [done|].
  cbn [LoadFile_loop].
  destruct (found _); [done|].
  destruct (StdString.empty l); [by apply IH|].
  destruct (is_header_line l); apply IH; cbn [push_entry AllLogs];
    (apply Forall_app; split; [done|]); apply Forall_singleton; by intros ?.
Qed.

(** The loop only appends: the records and categories it adds do not
    depend on the state it starts from. *)
Lemma LoadFile_loop_appends lines lvl cat idx :
  ∃ (new : list LogEntry) (cats : gset string), ∀ st,
    AllLogs (LoadFile_loop lines lvl cat idx st) = AllLogs st ++ new ∧
    UniqueCategories (LoadFile_loop lines lvl cat idx st)
      = cats ∪ UniqueCategories st.
Proof.
  revert lvl cat idx.
  induction lines as [|l ls IH]; intros lvl cat idx.
  { exists [], ∅. intros st. simpl. by rewrite app_nil_r, (left_id_L ∅ (∪)). }
  cbn [LoadFile_loop].
  destruct (found _).
  { exists [], ∅. intros st. by rewrite app_nil_r, (left_id_L ∅ (∪)). }
  destruct (StdString.empty l); [apply IH|].
  destruct (is_header_line l).
  - destruct (IH (Level (header_entry l (idx + 1)))
                 (Category (header_entry l (idx + 1))) (idx + 1))
      as (new & cats & Hnew).
    exists (header_entry l (idx + 1) :: new),
           (cats ∪ {[Category (header_entry l (idx + 1))]}).
    intros st. destruct (Hnew (push_entry (header_entry l (idx + 1)) st)) as [-> ->].
    cbn [push_entry AllLogs UniqueCategories].
    by rewrite <- app_assoc, (assoc_L (∪)).
  - destruct (IH lvl cat (idx + 1)) as (new & cats & Hnew).
    exists (continuation_entry l lvl cat (idx + 1) :: new),
           (cats ∪ {[Category (continuation_entry l lvl cat (idx + 1))]}).
    intros st.
    destruct (Hnew (push_entry (continuation_entry l lvl cat (idx + 1)) st))
      as [-> ->].
    cbn [push_entry AllLogs UniqueCategories].
    by rewrite <- app_assoc, (assoc_L (∪)).
Qed.

Lemma count_level_snoc (level : LogLevel) (logs : list LogEntry) (e : LogEntry) :
  count_level level (logs ++ [e]) =
  count_level level logs + (if decide (Level e = level) then 1 else 0).
Proof.
  unfold count_level. rewrite filter_app, length_app.
  rewrite filter_cons, filter_nil. case_decide; simpl; lia.
Qed.

Lemma level_count_push (level : LogLevel) (e : LogEntry) (st : LogViewerState) :
  level_count (LevelsCount (push_entry e st)) level =
  level_count (LevelsCount st) level + (if decide (Level e = level) then 1 else 0).
Proof.
  unfold level_count. cbn [push_entry LevelsCount].
  case_decide as Hl.
  - subst level. by rewrite lookup_insert_eq.
  - rewrite lookup_insert_ne by done. lia.
Qed.

(** Each counter runs ahead of the records by the same amount before and
    after the loop: nothing but the [++] of a pushed record changes it. *)
Lemma LoadFile_loop_counts (level : LogLevel) lines lvl cat idx st :
  level_count (LevelsCount (LoadFile_loop lines lvl cat idx st)) level
    - count_level level (AllLogs (LoadFile_loop lines lvl cat idx st))
  = level_count (LevelsCount st) level - count_level level (AllLogs st).
Proof.
  revert lvl cat idx st.
  induction lines as [|l ls IH]; intros lvl cat idx st; [done|].
  cbn [LoadFile_loop].
  destruct (found _); [done|].
  destruct (StdString.empty l); [by apply IH|].
  destruct (is_header_line l); rewrite IH, level_count_push;
    cbn [push_entry AllLogs]; rewrite count_level_snoc; lia.
Qed.

Lemma LoadFile_counts (level : LogLevel) (st : LogViewerState) (file : option string) :
  level_count (LevelsCount (LoadFile st file)) level =
  level_count (LevelsCount st) level
    + count_level level (AllLogs (LoadFile st file)).
Proof.
  destruct file as [text|]; [|cbn; unfold count_level; simpl; lia].
  unfold LoadFile. cbn [ApplyFilters LevelsCount AllLogs].
  pose proof (LoadFile_loop_counts level (StdString.getlines text)
                Display "General" (-1) (clear_logs st)) as Hc.
  cbn [clear_logs LevelsCount AllLogs] in Hc. unfold count_level at 2 in Hc.
  simpl in Hc. lia.
Qed.

(** The records and the category set after a load are those of the file
    alone. *)
Lemma LoadFile_fresh (st st' : LogViewerState) (file : option string) :
  AllLogs (LoadFile st file) = AllLogs (LoadFile st' file) ∧
  UniqueCategories (LoadFile st file) = UniqueCategories (LoadFile st' file).
Proof.
  destruct file as [text|]; [|done].
  unfold LoadFile. cbn [ApplyFilters AllLogs UniqueCategories].
  destruct (LoadFile_loop_appends (StdString.getlines text) Display "General" (-1))
    as (new & cats & Hnew).
  destruct (Hnew (clear_logs st)) as [-> ->].
  destruct (Hnew (clear_logs st')) as [-> ->]. done.
Qed.

(** An unreadable file: the records and categories are reset, and every
    other field, the view included, is left as it was. *)
Lemma LoadFile_unreadable (st : LogViewerState) :
  AllLogs (LoadFile st None) = [] ∧
  UniqueCategories (LoadFile st None) = {["All"]} ∧
  FilteredIndices (LoadFile st None) = FilteredIndices st ∧
  SelectedIndices (LoadFile st None) = SelectedIndices st.
Proof. done. Qed.

End IngestionFacts.

(** The context of a prefix is decided by the nearest header before its
    end. *)
Lemma header_context_nearest (logs : list LogEntry) (i : nat) (h : LogEntry) (d : nat) :
  logs !! i = Some h → IsHeader h = true →
  (∀ k e, (i < k < S i + d)%nat → logs !! k = Some e → IsHeader e = false) →
  header_context (take (S i + d) logs) = (Level h, Category h).
Proof.
  intros Hi Hh. induction d as [|d IH]; intros Hmid.
  - rewrite Nat.add_0_r, (take_S_r _ _ _ Hi), header_context_snoc. by rewrite Hh.
  - replace (S i + S d)%nat with (S (S i + d)) by lia.
    destruct (logs !! (S i + d)%nat) as [x|] eqn:Hx.
    + rewrite (take_S_r _ _ _ Hx), header_context_snoc.
      rewrite (Hmid (S i + d)%nat x) by (done || lia).
      apply IH. intros k e ??. apply (Hmid k); [lia|done].
    + apply lookup_ge_None in Hx.
      rewrite take_ge by lia. rewrite <- (take_ge logs (S i + d)) by lia.
      apply IH. intros k e ??. apply (Hmid k); [lia|done].
Qed.

Lemma header_context_no_header (logs : list LogEntry) (j : nat) :
  (∀ i e, (i < j)%nat → logs !! i = Some e → IsHeader e = false) →
  header_context (take j logs) = (Display, "General").
Proof.
  intros Hno. unfold header_context.
  replace (filter _ (take j logs)) with (@nil LogEntry); [done|].
  symmetry. apply filter_none. intros x [i Hx]%list_elem_of_lookup.
  apply lookup_take_Some in Hx as [Hx Hlt].
  rewrite (Hno i x Hlt Hx). congruence.
Qed.

(** ** Filtering *)

Lemma filter_ext_elem {A} (P Q : A → Prop) `{∀ x, Decision (P x)}
    `{∀ x, Decision (Q x)} (l : list A) :
  (∀ x, x ∈ l → (P x ↔ Q x)) → filter P l = filter Q l.
Proof.
  induction l as [|x l IH]; intros Hl; [done|].
  rewrite !filter_cons.
  rewrite IH by (intros y Hy; apply Hl; by right).
  destruct (Hl x) as [HPQ HQP]; [by left|].
  repeat case_decide; tauto.
Qed.

Lemma filter_sublist_impl {A} (P Q : A → Prop) `{∀ x, Decision (P x)}
    `{∀ x, Decision (Q x)} (l : list A) :
  (∀ x, x ∈ l → P x → Q x) → filter P l `sublist_of` filter Q l.
Proof.
  induction l as [|x l IH]; intros Hl; [done|].
  rewrite !filter_cons.
  assert (filter P l `sublist_of` filter Q l) as Hsub
    by (apply IH; intros y Hy; apply Hl; by right).
  pose proof (Hl x (list_elem_of_here x l)).
  repeat case_decide; try tauto.
  - by apply sublist_skip.
  - by apply sublist_cons.
Qed.

Section FilterFacts.
Variable st : LogViewerState.

Lemma ApplyFilters_loop_snoc (logs : list LogEntry) (x : LogEntry) :
  ApplyFilters_loop st (logs ++ [x]) =
  ApplyFilters_step st (StdString.tolower (SearchBuffer st))
    (ApplyFilters_loop st logs) x.
Proof. unfold ApplyFilters_loop. by rewrite fold_left_app. Qed.

Lemma step_next_i search s log :
  next_i (ApplyFilters_step st search s log) = next_i s + 1.
Proof.
  unfold ApplyFilters_step.
  destruct (IsHeader log); [destruct (_ && _)|]; done.
Qed.

Lemma step_skipping search s log :
  isSkippingDuplicates (ApplyFilters_step st search s log) =
    if IsHeader log
    then negb (ShowDuplicates st) && bool_decide (ContentHash log ∈ seenHashes s)
    else isSkippingDuplicates s.
Proof.
  unfold ApplyFilters_step.
  destruct (IsHeader log); [destruct (_ && _)|]; done.
Qed.

Lemma step_seen search s log (h : N) :
  h ∈ seenHashes (ApplyFilters_step st search s log) ↔
  h ∈ seenHashes s ∨ (IsHeader log = true ∧ ContentHash log = h).
Proof.
  unfold ApplyFilters_step.
  destruct (IsHeader log); [|simpl; naive_solver].
  destruct (negb (ShowDuplicates st) && _) eqn:Hdup; simpl.
  - apply andb_true_iff in Hdup as [_ Hin%bool_decide_eq_true].
    split; [tauto|]. intros [?|[_ <-]]; done.
  - rewrite elem_of_union, elem_of_singleton. naive_solver.
Qed.

Lemma step_pushed search s log :
  pushed (ApplyFilters_step st search s log) =
  pushed s ++
    (if negb (isSkippingDuplicates (ApplyFilters_step st search s log))
        && StandardFilters st search log
     then [next_i s] else []).
Proof.
  unfold ApplyFilters_step.
  destruct (IsHeader log); [destruct (negb (ShowDuplicates st) && _)|];
    cbn [pushed isSkippingDuplicates];
    [|destruct (StandardFilters st search log)
     |destruct (isSkippingDuplicates s), (StandardFilters st search log)];
    cbn [negb andb]; by rewrite ?app_nil_r.
Qed.

Lemma loop_next_i (logs : list LogEntry) :
  next_i (ApplyFilters_loop st logs) = Z.of_nat (length logs).
Proof.
  induction logs as [|x logs IH] using rev_ind; [done|].
  rewrite ApplyFilters_loop_snoc, step_next_i, IH, length_app. simpl. lia.
Qed.

(** The seen-set after a prefix holds the fingerprints of all the headers
    of the prefix, whatever the filters are. *)
Lemma loop_seen (logs : list LogEntry) (h : N) :
  h ∈ seenHashes (ApplyFilters_loop st logs) ↔
  ∃ e, e ∈ logs ∧ IsHeader e = true ∧ ContentHash e = h.
Proof.
  induction logs as [|x logs IH] using rev_ind.
  { simpl. split; [set_solver|]. intros (e & He & _). by apply elem_of_nil in He. }
  rewrite ApplyFilters_loop_snoc, step_seen, IH. split.
  - intros [(e & He & ?)|[? ?]].
    + exists e. rewrite elem_of_app. tauto.
    + exists x. rewrite elem_of_app, list_elem_of_singleton. tauto.
  - intros (e & [He|He%list_elem_of_singleton]%elem_of_app & Hh & Hc).
    + left. by exists e.
    + subst e. by right.
Qed.

Lemma loop_skipping_snoc (logs : list LogEntry) (x : LogEntry) :
  isSkippingDuplicates (ApplyFilters_loop st (logs ++ [x])) =
    if IsHeader x
    then negb (ShowDuplicates st)
         && bool_decide (ContentHash x ∈ seenHashes (ApplyFilters_loop st logs))
    else isSkippingDuplicates (ApplyFilters_loop st logs).
Proof. by rewrite ApplyFilters_loop_snoc, step_skipping. Qed.

Lemma shown_snoc_old (logs : list LogEntry) (x : LogEntry) (k : nat) :
  (k < length logs)%nat → shown st (logs ++ [x]) k = shown st logs k.
Proof.
  intros Hk. unfold shown.
  by rewrite lookup_app_l, take_app_le by lia.
Qed.

Lemma shown_snoc_new (logs : list LogEntry) (x : LogEntry) :
  shown st (logs ++ [x]) (length logs) =
  negb (isSkippingDuplicates (ApplyFilters_loop st (logs ++ [x])))
  && StandardFilters st (StdString.tolower (SearchBuffer st)) x.
Proof.
  unfold shown. rewrite list_lookup_middle by done.
  rewrite take_ge; [done|]. rewrite length_app. simpl. lia.
Qed.

(** The view is the increasing list of the shown positions. *)
Lemma loop_pushed (logs : list LogEntry) :
  pushed (ApplyFilters_loop st logs) =
  Z.of_nat <$> filter (λ k, shown st logs k = true) (seq 0 (length logs)).
Proof.
  induction logs as [|x logs IH] using rev_ind; [done|].
  rewrite length_app. cbn [length]. rewrite Nat.add_1_r, seq_S, filter_app, fmap_app.
  rewrite (filter_ext_elem _ (λ k, shown st logs k = true)).
  2:{ intros k Hk%elem_of_seq. by rewrite shown_snoc_old by lia. }
  rewrite <- IH. cbn [Nat.add]. rewrite filter_cons, filter_nil, shown_snoc_new.
  rewrite ApplyFilters_loop_snoc at 1. rewrite step_pushed, loop_next_i.
  rewrite <- ApplyFilters_loop_snoc.
  destruct (negb _ && _); by case_decide.
Qed.

Lemma elem_of_pushed (logs : list LogEntry) (k : nat) :
  Z.of_nat k ∈ pushed (ApplyFilters_loop st logs) ↔ shown st logs k = true.
Proof.
  rewrite loop_pushed, list_elem_of_fmap. split.
  - intros (k' & Hk & [Hs _]%list_elem_of_filter).
    apply Nat2Z.inj in Hk. by subst k'.
  - intros Hs. exists k. split; [done|].
    apply list_elem_of_filter. split; [done|].
    apply elem_of_seq. unfold shown in Hs.
    destruct (logs !! k) eqn:Hk; [|done].
    apply lookup_lt_Some in Hk. lia.
Qed.

(** A header whose fingerprint an earlier header carries switches the skip
    flag on. *)
Lemma duplicate_header_skipped (logs : list LogEntry) (i j : nat) (a b : LogEntry) :
  ShowDuplicates st = false →
  (i < j)%nat → logs !! i = Some a → logs !! j = Some b →
  IsHeader a = true → IsHeader b = true → ContentHash a = ContentHash b →
  isSkippingDuplicates (ApplyFilters_loop st (take (S j) logs)) = true.
Proof.
  intros Hsd Hij Hi Hj Ha Hb Hab.
  rewrite (take_S_r _ _ _ Hj), loop_skipping_snoc, Hb, Hsd. cbn [negb andb].
  apply bool_decide_eq_true, loop_seen. exists a. repeat split; [|done..].
  apply list_elem_of_lookup. exists i. by rewrite lookup_take_lt.
Qed.

(** The flag keeps its value over the continuation records of the block. *)
Lemma block_keeps_flag (logs : list LogEntry) (j d : nat) :
  (∀ m e, (j < m ≤ j + d)%nat → logs !! m = Some e → IsHeader e = false) →
  isSkippingDuplicates (ApplyFilters_loop st (take (S (j + d)) logs)) =
  isSkippingDuplicates (ApplyFilters_loop st (take (S j) logs)).
Proof.
  induction d as [|d IH]; intros Hblock.
  { by rewrite Nat.add_0_r. }
  rewrite <- IH by (intros m e ??; apply (Hblock m); [lia|done]).
  replace (j + S d)%nat with (S (j + d)) by lia.
  destruct (logs !! S (j + d)) as [x|] eqn:Hx.
  - rewrite (take_S_r _ _ _ Hx), loop_skipping_snoc.
    by rewrite (Hblock (S (j + d)) x) by (done || lia).
  - apply lookup_ge_None in Hx. by rewrite !take_ge by lia.
Qed.

Lemma loop_never_skips (logs : list LogEntry) :
  ShowDuplicates st = true →
  isSkippingDuplicates (ApplyFilters_loop st logs) = false.
Proof.
  intros Hsd. induction logs as [|x logs IH] using rev_ind; [done|].
  rewrite loop_skipping_snoc, Hsd, IH. by destruct (IsHeader x).
Qed.

End FilterFacts.

(** The standard filters are a conjunction of independent tests. *)
Lemma StandardFilters_true_iff (st : LogViewerState) (search : string) (r : LogEntry) :
  StandardFilters st search r = true ↔
    (Level r = Error → ShowErrors st = true) ∧
    (Level r = Warning → ShowWarnings st = true) ∧
    (Level r = Display → ShowDisplay st = true) ∧
    (SelectedCategory st = "All" ∨ Category r = SelectedCategory st) ∧
    (search = EmptyString ∨
     found (StdString.find search (StdString.tolower (FullText r))) = true).
Proof.
  unfold StandardFilters.
  destruct (String.eqb_spec (SelectedCategory st) "All") as [Hall|Hall];
  destruct (String.eqb_spec (Category r) (SelectedCategory st)) as [Hcat|Hcat];
  destruct (StdString.empty search) eqn:Hs;
  [apply empty_true_iff in Hs| |apply empty_true_iff in Hs|
   |apply empty_true_iff in Hs| |apply empty_true_iff in Hs| ];
  destruct (found (StdString.find search _));
  destruct (Level r), (ShowErrors st), (ShowWarnings st), (ShowDisplay st);
  cbn; (split; [intros ?; repeat split; try (intros ?; congruence); auto; try done
               |intros (?&?&?&[?|?]&[?|?]); try done; try tauto;
                try (subst search; done); auto]).
Qed.

(** The skip flag after a prefix depends on the records and on
    [ShowDuplicates] only. *)
Lemma loop_skipping_indep (st st' : LogViewerState) (logs : list LogEntry) :
  ShowDuplicates st = ShowDuplicates st' →
  isSkippingDuplicates (ApplyFilters_loop st logs) =
  isSkippingDuplicates (ApplyFilters_loop st' logs).
Proof.
  intros Hsd. induction logs as [|x logs IH] using rev_ind; [done|].
  rewrite !loop_skipping_snoc, Hsd, IH. destruct (IsHeader x); [|done].
  f_equal. apply bool_decide_ext. by rewrite !loop_seen.
Qed.

Lemma shown_iff (st : LogViewerState) (logs : list LogEntry) (k : nat) :
  shown st logs k = true ↔
  ∃ r, logs !! k = Some r ∧
       isSkippingDuplicates (ApplyFilters_loop st (take (S k) logs)) = false ∧
       StandardFilters st (StdString.tolower (SearchBuffer st)) r = true.
Proof.
  unfold shown. destruct (logs !! k) as [r|].
  - rewrite andb_true_iff, negb_true_iff. naive_solver.
  - naive_solver.
Qed.

Lemma view_sublist (st st' : LogViewerState) (logs : list LogEntry) :
  (∀ k, shown st' logs k = true → shown st logs k = true) →
  pushed (ApplyFilters_loop st' logs)
    `sublist_of` pushed (ApplyFilters_loop st logs).
Proof.
  intros Hshown. rewrite !loop_pushed.
  apply fmap_sublist, filter_sublist_impl. intros k _. apply Hshown.
Qed.

(** Weakening the standard filters and keeping [ShowDuplicates] can only
    add records to the view. *)
Lemma view_sublist_standard (st st' : LogViewerState) (logs : list LogEntry) :
  ShowDuplicates st = ShowDuplicates st' →
  (∀ r, StandardFilters st' (StdString.tolower (SearchBuffer st')) r = true →
        StandardFilters st (StdString.tolower (SearchBuffer st)) r = true) →
  pushed (ApplyFilters_loop st' logs)
    `sublist_of` pushed (ApplyFilters_loop st logs).
Proof.
  intros Hsd Hsf. apply view_sublist. intros k.
  rewrite !shown_iff. intros (r & Hr & Hskip & Hpass).
  exists r. repeat split; [done| |by apply Hsf].
  by rewrite (loop_skipping_indep st st').
Qed.

Lemma view_sublist_suppress (st : LogViewerState) (logs : list LogEntry) :
  pushed (ApplyFilters_loop (set_ShowDuplicates false st) logs)
    `sublist_of` pushed (ApplyFilters_loop st logs).
Proof.
  destruct (ShowDuplicates st) eqn:Hsd.
  - apply view_sublist. intros k. rewrite !shown_iff.
    intros (r & Hr & _ & Hpass). exists r. repeat split; [done| |done].
    by apply loop_never_skips.
  - replace (set_ShowDuplicates false st) with st; [done|].
    destruct st; simpl in *; by subst.
Qed.

(** The loop reads the search text through [tolower] only. *)
Lemma ApplyFilters_loop_search (st : LogViewerState) (s1 s2 : string)
    (logs : list LogEntry) :
  StdString.tolower s1 = StdString.tolower s2 →
  ApplyFilters_loop (set_SearchBuffer s1 st) logs =
  ApplyFilters_loop (set_SearchBuffer s2 st) logs.
Proof.
  intros Hs. unfold ApplyFilters_loop.
  cbn [set_SearchBuffer SearchBuffer]. by rewrite Hs.
Qed.

(** ** The properties of the ingestion parser *)

(** The lines that [std::getline] reads from the text of a file. *)

Lemma append_nil (t : string) : EmptyString +:+ t = t.
Proof. reflexivity. Qed.

Lemma append_cons (c : ascii) (s t : string) :
  String c s +:+ t = String c (s +:+ t).
Proof. reflexivity. Qed.

Lemma getlines_line (l rest : string) :
  newline_free l →
  StdString.getlines (l +:+ String "010" rest) = l :: StdString.getlines rest.
Proof.
  induction l as [|c l IH]; intros Hfree.
  { by rewrite append_nil. }
  apply Forall_cons in Hfree as [Hc Hfree].
  rewrite append_cons. cbn [StdString.getlines].
  destruct (Ascii.eqb_spec c "010"); [done|]. by rewrite IH.
Qed.

Lemma getlines_last (l : string) :
  newline_free l →
  StdString.getlines l = if StdString.empty l then [] else [l].
Proof.
  induction l as [|c l IH]; intros Hfree; [done|].
  apply Forall_cons in Hfree as [Hc Hfree].
  cbn [StdString.getlines StdString.empty].
  destruct (Ascii.eqb_spec c "010"); [done|]. rewrite IH by done.
  by destruct l.
Qed.

(** A final newline gives no further line, and an empty line is not kept
    anyway: the kept lines of the text are those of its lines. *)
Lemma kept_lines_getlines_join (lines : list string) :
  Forall newline_free lines →
  kept_lines (StdString.getlines (join_lines lines)) = kept_lines lines.
Proof.
  induction lines as [|l rest IH]; intros Hfree; [done|].
  apply Forall_cons in Hfree as [Hl Hrest].
  destruct rest as [|l2 rest].
  - cbn [join_lines]. rewrite getlines_last by done.
    destruct l; [done|reflexivity].
  - change (join_lines (l :: l2 :: rest))
      with (l +:+ String "010" (join_lines (l2 :: rest))).
    rewrite getlines_line by done.
    rewrite (kept_lines_cons l (StdString.getlines _)),
            (kept_lines_cons l (l2 :: rest)).
    by rewrite IH.
Qed.

Lemma text_is_lines (text : string) :
  ∃ lines, lines ≠ [] ∧ Forall newline_free lines ∧ text = join_lines lines.
Proof.
  induction text as [|c text (lines & Hne & Hfree & ->)].
  { exists [EmptyString]. repeat split; [done|]. repeat constructor. }
  destruct (Ascii.eqb_spec c "010") as [->|Hc].
  - exists (EmptyString :: lines). split; [done|]. split.
    + constructor; [constructor|done].
    + by destruct lines.
  - destruct lines as [|l rest]; [done|].
    apply Forall_cons in Hfree as [Hl Hrest].
    exists (String c l :: rest). split; [done|]. split.
    + constructor; [by constructor|done].
    + by destruct rest.
Qed.

(** C4 (amended). Every input text is a sequence of lines separated by
    newlines, and the [LogIndex] values of the records that [LoadFile]
    produces from it are exactly [0 .. k-1], in order, where [k] is the
    number of non-empty lines before the first line that contains
    ["Warning/Error Summary"]: an empty line (no character at all) yields no
    record and does not advance the index, reading stops at the marker, and
    every other line, also one of spaces only, yields one record (a header
    keeps its text, a continuation is indented by six spaces). *)
Theorem C4_sequence_indices `{StdHash} (st : LogViewerState) (text : string) :
  (∃ lines, Forall newline_free lines ∧ text = join_lines lines) ∧
  (∀ lines, Forall newline_free lines → text = join_lines lines →
     let logs := AllLogs (LoadFile st (Some text)) in
     let kept := kept_lines lines in
     LogIndex <$> logs = seqZ 0 (Z.of_nat (length kept)) ∧
     length logs = length kept ∧
     Forall2 record_of_line logs kept).
Proof.
  split.
  { destruct (text_is_lines text) as (lines & _ & Hfree & Htext). by exists lines. }
  intros lines Hfree -> logs kept. subst logs kept.
  rewrite LoadFile_Some_AllLogs.
  pose proof (LoadFile_loop_lines (StdString.getlines (join_lines lines))
                Display "General" (-1) (clear_logs st) [] ltac:(constructor))
    as Hlines.
  pose proof (LoadFile_loop_indices (StdString.getlines (join_lines lines))
                Display "General" (-1) (clear_logs st)) as Hidx.
  rewrite kept_lines_getlines_join in Hlines, Hidx by done.
  split; [|split].
  - by rewrite Hidx.
  - by apply Forall2_length in Hlines.
  - done.
Qed.

(** The lines of the sample: the empty third line and the lines from the
    marker on give no record. *)
Lemma C4_witness :
  LogIndex <$> AllLogs sample_state = [0; 1; 2; 3; 4] ∧
  length (AllLogs sample_state) = 5%nat.
Proof.
  assert (Forall newline_free
            ["[0] LogCook: Error: bad texture"; "   continuation info";
             EmptyString; "[1] LogCook: Error: bad texture"; "   again";
             "[2] LogTemp: Warning: slow"; "--- Warning/Error Summary ---";
             "[3] LogTemp: never read"; EmptyString]) as Hfree
    by (repeat constructor; discriminate).
  destruct (proj2 (C4_sequence_indices (H := fnv1a) g_LogState sample_text)
              _ Hfree eq_refl) as (Hidx & Hlen & _).
  split; [exact Hidx|exact Hlen].
Defined.

(** C4 as stated fails: the second of the three lines ["[0] a"], ["   "],
    ["[1] b"] is blank, so two lines are non-blank, yet [LoadFile] produces
    three records with the indices 0, 1, 2: the line of spaces is not
    empty, becomes a continuation record and advances the index. *)
Lemma C4_counterexample :
  let lines := ["[0] a"; "   "; "[1] b"] in
  let logs := AllLogs (LoadFile (H := fnv1a) g_LogState (Some (join_lines lines))) in
  Forall newline_free lines ∧
  length (non_blank_lines lines) = 2%nat ∧
  LogIndex <$> logs = [0; 1; 2] ∧
  LogIndex <$> logs ≠ seqZ 0 (Z.of_nat (length (non_blank_lines lines))) ∧
  (FullText <$> logs) !! 1%nat = Some "         ".
Proof.
  cbv zeta. split; [repeat constructor; discriminate|].
  vm_compute. repeat split; congruence.
Qed.

(** C5. For every input text and every continuation record that
    [LoadFile] produces, the level and category are those of the nearest
    header record before it; when no header record precedes it they are
    [Display] (the specification's Info) and ["General"]. *)
Theorem C5_continuation_inherits `{StdHash} (st : LogViewerState)
    (text : string) (j : nat) (r : LogEntry) :
  let logs := AllLogs (LoadFile st (Some text)) in
  logs !! j = Some r → IsHeader r = false →
  (∀ (i : nat) (h : LogEntry),
      (i < j)%nat → logs !! i = Some h → IsHeader h = true →
      (∀ k e, (i < k < j)%nat → logs !! k = Some e → IsHeader e = false) →
      Level r = Level h ∧ Category r = Category h) ∧
  ((∀ i e, (i < j)%nat → logs !! i = Some e → IsHeader e = false) →
      Level r = Display ∧ Category r = "General").
Proof.
  intros logs Hj Hr.
  assert (continuation_ok logs) as Hok.
  { subst logs. rewrite LoadFile_Some_AllLogs.
    apply LoadFile_loop_context; [done|]. by intros ??. }
  specialize (Hok j r Hj Hr). split.
  - intros i h Hij Hi Hh Hmid.
    replace j with (S i + (j - S i))%nat in Hok by lia.
    rewrite (header_context_nearest logs i h _ Hi Hh) in Hok.
    + by inversion Hok.
    + intros k e ?. apply Hmid. lia.
  - intros Hnone. rewrite header_context_no_header in Hok by done.
    by inversion Hok.
Qed.

Lemma C5_witness :
  ∃ r, AllLogs sample_state !! 3%nat = Some r ∧ IsHeader r = false ∧
       Level r = Error ∧ Category r = "LogCook".
Proof.
  eexists. split; [vm_compute; reflexivity|]. split; [reflexivity|].
  edestruct (proj1 (C5_continuation_inherits (H := fnv1a) g_LogState sample_text
                      3 _ ltac:(vm_compute; reflexivity) eq_refl) 2%nat)
    as [Hlevel Hcategory];
    [lia | vm_compute; reflexivity | reflexivity | intros k e Hk; lia | ].
  split; [exact Hlevel|exact Hcategory].
Defined.

(** C1 (amended). For every header record that [LoadFile] produces, the
    fingerprint is the hash of the text from the first occurrence of
    ["Log"] on, whenever ["Log"] occurs in the line, whether or not it is
    accepted as a category tag; it is the hash of the entire line only when
    ["Log"] does not occur.  The category is the one detected on the
    line. *)
Theorem C1_fingerprint_from_first_Log `{StdHash} (st : LogViewerState)
    (text : string) (e : LogEntry) :
  e ∈ AllLogs (LoadFile st (Some text)) → IsHeader e = true →
  (∀ catStart, StdString.find "Log" (FullText e) = Some catStart →
     ContentHash e = std_hash (StdString.substr_from (FullText e) catStart)) ∧
  (StdString.find "Log" (FullText e) = None →
     ContentHash e = std_hash (FullText e)) ∧
  Category e = detect_category (FullText e).
Proof.
  rewrite LoadFile_Some_AllLogs. intros He Hh.
  pose proof (LoadFile_loop_headers (StdString.getlines text) Display "General"
                (-1) (clear_logs st) ltac:(constructor)) as Hall.
  rewrite Forall_forall in Hall. destruct (Hall e He Hh) as (Hhash & Hcat & _).
  unfold textToHash in Hhash. repeat split; [| |done].
  - intros catStart Hfind. by rewrite Hfind in Hhash.
  - intros Hfind. by rewrite Hfind in Hhash.
Qed.

Lemma C1_witness :
  let e := header_entry (H := fnv1a) "[7] xLog: a" 0 in
  e ∈ AllLogs (LoadFile (H := fnv1a) g_LogState (Some "[7] xLog: a")) ∧
  IsHeader e = true ∧
  ContentHash e = fnv1a "Log: a".
Proof.
  intros e.
  assert (e ∈ AllLogs (LoadFile (H := fnv1a) g_LogState (Some "[7] xLog: a")))
    as He by (vm_compute; left).
  split; [exact He|]. split; [reflexivity|].
  exact (proj1 (C1_fingerprint_from_first_Log (H := fnv1a) g_LogState
                  "[7] xLog: a" e He eq_refl) 5%nat eq_refl).
Defined.

(** C1 as stated fails: in the header line ["[7] xLog: a"] the tag is
    refused (the character before ["Log"] is [x]) and the category stays
    ["General"], yet the fingerprint is the hash of ["Log: a"] and not the
    hash of the entire line; likewise for ["[7] Log end"], where no [:]
    follows. *)
Lemma C1_counterexample :
  ∃ e1 e2,
    AllLogs (LoadFile (H := fnv1a) g_LogState (Some "[7] xLog: a")) = [e1] ∧
    AllLogs (LoadFile (H := fnv1a) g_LogState (Some "[7] Log end")) = [e2] ∧
    IsHeader e1 = true ∧ Category e1 = "General" ∧
    ContentHash e1 = fnv1a "Log: a" ∧
    ContentHash e1 ≠ fnv1a (FullText e1) ∧
    IsHeader e2 = true ∧ Category e2 = "General" ∧
    ContentHash e2 = fnv1a "Log end" ∧
    ContentHash e2 ≠ fnv1a (FullText e2).
Proof. eexists _, _. vm_compute. repeat split; congruence. Qed.

(** C10 (amended). A load replaces the records and the category set by
    those of the file, and adds the file's records to the per-level
    counters without resetting them: after two successive loads each
    counter is its value before the first of them plus the number of
    records of that level in the first file plus the number in the second;
    it is the sum over the two files alone when the counters were all zero
    before the first of them. *)
Theorem C10_counters_accumulate `{StdHash} (st0 : LogViewerState)
    (file1 file2 : option string) :
  let st1 := LoadFile st0 file1 in
  let st2 := LoadFile st1 file2 in
  AllLogs st2 = AllLogs (LoadFile g_LogState file2) ∧
  UniqueCategories st2 = UniqueCategories (LoadFile g_LogState file2) ∧
  (∀ level,
     level_count (LevelsCount st2) level =
     level_count (LevelsCount st0) level
       + count_level level (AllLogs st1) + count_level level (AllLogs st2)) ∧
  ((∀ level, level_count (LevelsCount st0) level = 0) →
   ∀ level,
     level_count (LevelsCount st2) level =
     count_level level (AllLogs st1) + count_level level (AllLogs st2)).
Proof.
  intros st1 st2. subst st1 st2.
  destruct (LoadFile_fresh (LoadFile st0 file1) g_LogState file2) as [Hlogs Hcats].
  assert (∀ level,
     level_count (LevelsCount (LoadFile (LoadFile st0 file1) file2)) level =
     level_count (LevelsCount st0) level
       + count_level level (AllLogs (LoadFile st0 file1))
       + count_level level (AllLogs (LoadFile (LoadFile st0 file1) file2)))
    as Hcount by (intros level; by rewrite !LoadFile_counts).
  repeat split; [done..|].
  intros Hzero level. rewrite Hcount, Hzero. lia.
Qed.

(** The first two loads of a run, from the state in which the top bar has
    been drawn. *)
Lemma C10_witness :
  let st1 := LoadFile (H := fnv1a) drawn_state (Some sample_text) in
  let st2 := LoadFile (H := fnv1a) st1 (Some example_text) in
  level_count (LevelsCount st2) Error = 4 + 3 ∧
  length (AllLogs st2) = 3%nat.
Proof.
  intros st1 st2.
  destruct (C10_counters_accumulate (H := fnv1a) drawn_state
              (Some sample_text) (Some example_text))
    as (_ & _ & _ & Hcount).
  split.
  - etransitivity; [apply (Hcount ltac:(by intros []) Error)|vm_compute; reflexivity].
  - vm_compute; reflexivity.
Defined.

(** C10 as stated fails for the second and third load of a run: the three
    lines of the example hold three [Error] records, and after the third
    load the counter is 9 while the two files of the last two loads hold 6
    such records. *)
Lemma C10_counterexample :
  let st1 := LoadFile (H := fnv1a) g_LogState (Some example_text) in
  let st2 := LoadFile (H := fnv1a) st1 (Some example_text) in
  let st3 := LoadFile (H := fnv1a) st2 (Some example_text) in
  level_count (LevelsCount st3) Error = 9 ∧
  count_level Error (AllLogs st2) + count_level Error (AllLogs st3) = 6 ∧
  level_count (LevelsCount st3) Error
    ≠ count_level Error (AllLogs st2) + count_level Error (AllLogs st3).
Proof. vm_compute. repeat split; congruence. Qed.

(** C2 (the defect).  After a successful load of one line, a load of a file
    that cannot be opened empties the records and leaves only ["All"] in
    the category set, but returns before [ApplyFilters]: the view still
    holds index 0, and the row drawn for it reads past the end of the
    record vector. *)
Theorem C2_unreadable_keeps_stale_view :
  let before := LoadFile (H := fnv1a) g_LogState (Some "[0] LogTemp: hi") in
  let after := LoadFile (H := fnv1a) before None in
  FilteredIndices before = [0] ∧
  AllLogs after = [] ∧
  UniqueCategories after = {["All"]} ∧
  FilteredIndices after = [0] ∧
  VisibleRows after = [None].
Proof. vm_compute. repeat split. Qed.

(** ** The properties of the filter engine *)

(** C3. With duplicate suppression enabled ([ShowDuplicates] cleared), a
    header record whose fingerprint equals that of an earlier header record
    is excluded from the view, and so is every continuation record after it
    up to the next header; with duplicate suppression disabled, a record is
    in the view exactly when it passes the standard filters, so none is
    excluded by this rule. *)
Theorem C3_duplicate_blocks_excluded (st : LogViewerState) :
  let logs := AllLogs st in
  let view := FilteredIndices (ApplyFilters st) in
  (ShowDuplicates st = false →
   ∀ (i j : nat) (a b : LogEntry),
     (i < j)%nat → logs !! i = Some a → logs !! j = Some b →
     IsHeader a = true → IsHeader b = true → ContentHash a = ContentHash b →
     (Z.of_nat j ∉ view) ∧
     ∀ k : nat, (j < k)%nat →
       (∀ m e, (j < m ≤ k)%nat → logs !! m = Some e → IsHeader e = false) →
       Z.of_nat k ∉ view) ∧
  (ShowDuplicates st = true →
   ∀ (k : nat) (r : LogEntry), logs !! k = Some r →
     (Z.of_nat k ∈ view ↔
      StandardFilters st (StdString.tolower (SearchBuffer st)) r = true)).
Proof.
  intros logs view. subst logs view. cbn [ApplyFilters FilteredIndices]. split.
  - intros Hsd i j a b Hij Hi Hj Ha Hb Hab.
    pose proof (duplicate_header_skipped st _ i j a b Hsd Hij Hi Hj Ha Hb Hab)
      as Hskip.
    split.
    + rewrite elem_of_pushed, shown_iff. intros (r & _ & Hoff & _). congruence.
    + intros k Hjk Hblock.
      rewrite elem_of_pushed, shown_iff. intros (r & _ & Hoff & _).
      replace k with (j + (k - j))%nat in Hoff by lia.
      rewrite block_keeps_flag in Hoff; [congruence|].
      intros m e ?. apply Hblock. lia.
  - intros Hsd k r Hk. rewrite elem_of_pushed, shown_iff. split.
    + intros (r' & Hr' & _ & Hpass). congruence.
    + intros Hpass. exists r. repeat split; [done| |done].
      by apply loop_never_skips.
Qed.

Lemma C3_witness :
  let st := set_ShowDuplicates false sample_state in
  (2 ∉ FilteredIndices (ApplyFilters st)) ∧ (3 ∉ FilteredIndices (ApplyFilters st)).
Proof.
  intros st.
  destruct (C3_duplicate_blocks_excluded st) as [Hon _].
  edestruct (Hon eq_refl 0%nat 2%nat) as [Hheader Hblock];
    [lia | vm_compute; reflexivity | vm_compute; reflexivity
     | reflexivity | reflexivity | reflexivity | ].
  split; [exact Hheader|].
  apply (Hblock 3%nat); [lia|].
  intros m e Hm He. assert (m = 3%nat) as -> by lia.
  vm_compute in He. by inversion He.
Defined.

(** The example of the specification: with duplicate suppression on and
    all severities shown, the view of the three lines is [0; 1]. *)
Example example_view :
  FilteredIndices
    (ApplyFilters (set_ShowDuplicates false
       (LoadFile (H := fnv1a) g_LogState (Some example_text)))) = [0; 1].
Proof. vm_compute. reflexivity. Qed.

(** C9. The seen-set after any prefix of the records holds the
    fingerprints of all the headers of the prefix, whatever the severity,
    category and search filters decide; hence, with duplicate suppression
    enabled, a later header with the fingerprint of a header that the
    standard filters exclude is excluded as well. *)
Theorem C9_fingerprint_seen_before_filters (st : LogViewerState) :
  let logs := AllLogs st in
  let view := FilteredIndices (ApplyFilters st) in
  (∀ (n : nat) (h : N),
     h ∈ seenHashes (ApplyFilters_loop st (take n logs)) ↔
     ∃ e, e ∈ take n logs ∧ IsHeader e = true ∧ ContentHash e = h) ∧
  (ShowDuplicates st = false →
   ∀ (i j : nat) (a b : LogEntry),
     (i < j)%nat → logs !! i = Some a → logs !! j = Some b →
     IsHeader a = true → IsHeader b = true → ContentHash a = ContentHash b →
     StandardFilters st (StdString.tolower (SearchBuffer st)) a = false →
     (Z.of_nat i ∉ view) ∧ (Z.of_nat j ∉ view)).
Proof.
  intros logs view. subst logs view. cbn [ApplyFilters FilteredIndices]. split.
  - intros n h. apply loop_seen.
  - intros Hsd i j a b Hij Hi Hj Ha Hb Hab Hfail.
    rewrite !elem_of_pushed, !shown_iff. split.
    + intros (r & Hr & _ & Hpass). congruence.
    + intros (r & _ & Hoff & _).
      rewrite (duplicate_header_skipped st _ i j a b) in Hoff; done.
Qed.

Lemma C9_witness :
  let st := set_SearchBuffer "[1]" (set_ShowDuplicates false sample_state) in
  (0 ∉ FilteredIndices (ApplyFilters st)) ∧ (2 ∉ FilteredIndices (ApplyFilters st)).
Proof.
  intros st.
  destruct (C9_fingerprint_seen_before_filters st) as [_ Hon].
  eapply (Hon eq_refl 0%nat 2%nat);
    [lia | vm_compute; reflexivity | vm_compute; reflexivity
     | reflexivity | reflexivity | reflexivity | vm_compute; reflexivity].
Defined.

(** The second header of the sample passes the search for ["[1]"]: it is
    shown while duplicates are shown, and hidden by the suppression alone. *)
Example search_hits_second_header :
  FilteredIndices (ApplyFilters (set_SearchBuffer "[1]" sample_state)) = [2] ∧
  FilteredIndices
    (ApplyFilters (set_SearchBuffer "[1]"
       (set_ShowDuplicates false sample_state))) = [].
Proof. vm_compute. done. Qed.

(** C6. Turning one filter off (clearing a severity toggle, narrowing the
    category from ["All"], starting a search from the empty text, or
    enabling duplicate suppression) yields a view that is a subsequence of
    the view before the change: no index is added. *)
Theorem C6_filters_only_shrink (st st' : LogViewerState) :
  turned_off st st' →
  FilteredIndices (ApplyFilters st') `sublist_of` FilteredIndices (ApplyFilters st) ∧
  ∀ i, i ∈ FilteredIndices (ApplyFilters st') → i ∈ FilteredIndices (ApplyFilters st).
Proof.
  intros Hoff.
  assert (FilteredIndices (ApplyFilters st')
            `sublist_of` FilteredIndices (ApplyFilters st)) as Hsub.
  { cbn [ApplyFilters FilteredIndices].
    destruct Hoff as [st|st|st|st c Hall|st s Hempty|st];
      [apply view_sublist_standard; [done|]..|apply view_sublist_suppress];
      intros r; rewrite !StandardFilters_true_iff;
      cbn [set_ShowErrors set_ShowWarnings set_ShowDisplay set_SelectedCategory
           set_SearchBuffer ShowErrors ShowWarnings ShowDisplay
           SelectedCategory SearchBuffer].
    - naive_solver.
    - naive_solver.
    - naive_solver.
    - rewrite Hall. naive_solver.
    - rewrite Hempty. naive_solver. }
  split; [done|]. intros i. by apply sublist_subseteq.
Qed.

Lemma C6_witness :
  FilteredIndices (ApplyFilters (set_SelectedCategory "LogTemp" sample_state))
    `sublist_of` FilteredIndices (ApplyFilters sample_state).
Proof.
  apply (C6_filters_only_shrink sample_state
           (set_SelectedCategory "LogTemp" sample_state)).
  apply narrow_category. reflexivity.
Defined.

(** C7. The view computed with the search text ["error"] is the view
    computed with ["ERROR"]; in general two search texts that differ in
    letter case only give the same view, and a record passes a non-empty
    search exactly when the lower-cased search text occurs in its
    lower-cased display text. *)
Theorem C7_search_ignores_case (st : LogViewerState) :
  FilteredIndices (ApplyFilters (set_SearchBuffer "error" st)) =
  FilteredIndices (ApplyFilters (set_SearchBuffer "ERROR" st)) ∧
  (∀ s1 s2, StdString.tolower s1 = StdString.tolower s2 →
     FilteredIndices (ApplyFilters (set_SearchBuffer s1 st)) =
     FilteredIndices (ApplyFilters (set_SearchBuffer s2 st))) ∧
  (∀ s r, s ≠ EmptyString → StandardFilters st EmptyString r = true →
     (StandardFilters (set_SearchBuffer s st) (StdString.tolower s) r = true ↔
      found (StdString.find (StdString.tolower s)
               (StdString.tolower (FullText r))) = true)).
Proof.
  assert (∀ s1 s2, StdString.tolower s1 = StdString.tolower s2 →
     FilteredIndices (ApplyFilters (set_SearchBuffer s1 st)) =
     FilteredIndices (ApplyFilters (set_SearchBuffer s2 st))) as Hcase.
  { intros s1 s2 Hs. cbn [ApplyFilters FilteredIndices set_SearchBuffer AllLogs].
    by rewrite (ApplyFilters_loop_search st s1 s2). }
  split; [by apply Hcase|]. split; [done|].
  intros s r Hs. rewrite !StandardFilters_true_iff.
  cbn [set_SearchBuffer ShowErrors ShowWarnings ShowDisplay SelectedCategory].
  assert (StdString.tolower s ≠ EmptyString) by (by destruct s).
  naive_solver.
Qed.

Lemma C7_witness :
  FilteredIndices (ApplyFilters (set_SearchBuffer "Bad Texture" sample_state)) =
  FilteredIndices (ApplyFilters (set_SearchBuffer "bAD tEXTURE" sample_state)).
Proof.
  destruct (C7_search_ignores_case sample_state) as (_ & Hcase & _).
  apply Hcase. reflexivity.
Defined.

(** ** The context window *)

Lemma ContextWindow_positions (st : LogViewerState) (f : Z) (w : list (Z * option LogEntry)) :
  ContextWindow st f = Some w →
  w.*1 = seqZ (Z.max 0 (f - 5))
              (Z.min (Z.of_nat (length (AllLogs st))) (f + 6) - Z.max 0 (f - 5)) ∧
  ∀ i r, (i, r) ∈ w → r = AllLogs st !! Z.to_nat i.
Proof.
  unfold ContextWindow. destruct (_ && _); [|done]. intros [= <-]. split.
  - generalize (seqZ (Z.max 0 (f - 5))
                (Z.min (Z.of_nat (length (AllLogs st))) (f + 6) - Z.max 0 (f - 5))).
    intros l. induction l as [|i l IH]; [done|]. cbn. by f_equal.
  - intros i r (i' & Hi & _)%list_elem_of_fmap. by inversion Hi.
Qed.

(** C8. For a state with [n] records and a focus index [f] with
    [0 <= f < n] ([f] being an [int]), the context window shows exactly the
    records at the positions [max 0 (f-5) .. min (n-1) (f+5)], each read
    from the raw record sequence; it reads no filter field, so two states
    with the same records have the same window.  With 10 records the
    window of 3 is [0 .. 8] and the window of 0 is [0 .. 5]. *)
Theorem C8_context_window (st : LogViewerState) (f : Z) :
  let n := Z.of_nat (length (AllLogs st)) in
  0 ≤ f < n → f < 2 ^ 31 →
  ∃ w, ContextWindow st f = Some w ∧
       w.*1 = seqZ (Z.max 0 (f - 5))
                   (Z.min (n - 1) (f + 5) - Z.max 0 (f - 5) + 1) ∧
       (∀ i r, (i, r) ∈ w ↔
          Z.max 0 (f - 5) ≤ i ≤ Z.min (n - 1) (f + 5) ∧
          r = AllLogs st !! Z.to_nat i ∧ is_Some r) ∧
       (∀ st', AllLogs st' = AllLogs st → ContextWindow st' f = Some w) ∧
       (n = 10 → f = 3 → w.*1 = [0; 1; 2; 3; 4; 5; 6; 7; 8]) ∧
       (n = 10 → f = 0 → w.*1 = [0; 1; 2; 3; 4; 5]).
Proof.
  intros n Hf Hint.
  assert (ContextWindow st f =
          Some (map (λ i, (i, AllLogs st !! Z.to_nat i))
                    (seqZ (Z.max 0 (f - 5))
                          (Z.min n (f + 6) - Z.max 0 (f - 5))))) as Hw.
  { unfold ContextWindow. fold n.
    rewrite Z.mod_small by lia.
    destruct (Z.eqb_spec f (-1)); [lia|].
    destruct (Z.ltb_spec f n); [done|lia]. }
  eexists. split; [exact Hw|].
  destruct (ContextWindow_positions st f _ Hw) as [Hpos Hread]. fold n in Hpos.
  assert (Z.min n (f + 6) - Z.max 0 (f - 5)
          = Z.min (n - 1) (f + 5) - Z.max 0 (f - 5) + 1) as Hlen by lia.
  split; [by rewrite <- Hlen|]. split; [|split; [|split]].
  - intros i r. rewrite list_elem_of_fmap. split.
    + intros (i' & [= -> ->] & Hi%elem_of_seqZ). repeat split; [lia..|].
      apply lookup_lt_is_Some. lia.
    + intros (Hi & -> & _). exists i. split; [done|]. apply elem_of_seqZ. lia.
  - intros st' Hlogs. unfold ContextWindow in *. by rewrite Hlogs.
  - intros Hn ->. rewrite Hpos, Hn. reflexivity.
  - intros Hn ->. rewrite Hpos, Hn. reflexivity.
Qed.

Lemma C8_witness :
  ∃ w, ContextWindow (numbered_state 10) 3 = Some w ∧
       w.*1 = [0; 1; 2; 3; 4; 5; 6; 7; 8].
Proof.
  destruct (C8_context_window (numbered_state 10) 3) as (w & Hw & _ & _ & _ & H3 & _).
  - vm_compute. split; [discriminate|reflexivity].
  - reflexivity.
  - exists w. split; [exact Hw|]. apply H3; reflexivity.
Defined.

(** * Further properties of the engine and of its callers *)

(** ** Facts about the string operations *)

Lemma substr_from_suffix (s : string) (p : nat) :
  ∃ pre, s = pre +:+ StdString.substr_from s p.
Proof.
  revert s. induction p as [|p IH]; intros s.
  { exists EmptyString. by destruct s. }
  destruct s as [|c s]; [by exists EmptyString|].
  destruct (IH s) as [pre Hpre]. exists (String c pre).
  rewrite append_cons. cbn [StdString.substr_from]. by rewrite <- Hpre.
Qed.

Lemma substr_from_app (s t : string) (p : nat) :
  (p ≤ String.length s)%nat →
  StdString.substr_from (s +:+ t) p = StdString.substr_from s p +:+ t.
Proof.
  revert s. induction p as [|p IH]; intros s Hp.
  { destruct s; [by destruct t|reflexivity]. }
  destruct s as [|c s]; simpl in Hp; [lia|].
  rewrite append_cons. cbn [StdString.substr_from]. apply IH. lia.
Qed.

Lemma substr_from_length (s t : string) :
  StdString.substr_from (s +:+ t) (String.length s) = t.
Proof.
  induction s as [|c s IH]; [by destruct t|].
  by rewrite append_cons.
Qed.

Lemma find_Some_starts_with (needle s : string) (p : nat) :
  StdString.find needle s = Some p →
  StdString.starts_with needle (StdString.substr_from s p) = true.
Proof.
  revert p. induction s as [|c s IH]; intros p; cbn [StdString.find].
  - destruct (StdString.starts_with needle EmptyString) eqn:Hs; [|done].
    by intros [= <-].
  - destruct (StdString.starts_with needle (String c s)) eqn:Hs.
    + by intros [= <-].
    + destruct (StdString.find needle s) as [q|]; [|done].
      intros [= <-]. by apply IH.
Qed.

Lemma find_Some_lt (a : ascii) (needle s : string) (p : nat) :
  StdString.find (String a needle) s = Some p → (p < String.length s)%nat.
Proof.
  revert p. induction s as [|c s IH]; intros p; cbn [StdString.find]; [done|].
  destruct (StdString.starts_with _ (String c s)).
  - intros [= <-]. simpl. lia.
  - destruct (StdString.find _ s) as [q|]; [|done].
    intros [= <-]. specialize (IH q eq_refl). simpl. lia.
Qed.

(** A one-character needle is found in [s +:+ t] where it is found in [s],
    and otherwise where it is found in [t]. *)
Lemma find_char_app (c : ascii) (s t : string) :
  StdString.find (String c EmptyString) (s +:+ t) =
    match StdString.find (String c EmptyString) s with
    | Some p => Some p
    | None => (λ q, String.length s + q)%nat
                <$> StdString.find (String c EmptyString) t
    end.
Proof.
  induction s as [|a s IH].
  { rewrite append_nil. cbn [String.length].
    destruct (StdString.find _ t) eqn:Ht; [by destruct t|].
    by destruct t. }
  rewrite append_cons.
  cbn [StdString.find StdString.starts_with String.length].
  destruct (Ascii.eqb c a); [done|]. rewrite IH.
  destruct (StdString.find _ s); [done|].
  by destruct (StdString.find _ t).
Qed.

Lemma find_first_not_of_Some (chars s : string) (q : nat) :
  StdString.find_first_not_of chars s = Some q →
  (q < String.length s)%nat ∧
  ∃ c t, StdString.substr_from s q = String c t ∧
         StdString.contains_char chars c = false.
Proof.
  revert q. induction s as [|a s IH]; intros q; cbn [StdString.find_first_not_of];
    [done|].
  destruct (StdString.contains_char chars a) eqn:Ha.
  - destruct (StdString.find_first_not_of chars s) as [q'|]; [|done].
    intros [= <-]. destruct (IH q' eq_refl) as (Hlt & c & t & Hsub & Hc).
    split; [simpl; lia|]. by exists c, t.
  - intros [= <-]. split; [simpl; lia|]. by exists a, s.
Qed.

Lemma find_first_not_of_app (chars s t : string) :
  StdString.find_first_not_of chars (s +:+ t) =
    match StdString.find_first_not_of chars s with
    | Some q => Some q
    | None => (λ q, String.length s + q)%nat
                <$> StdString.find_first_not_of chars t
    end.
Proof.
  induction s as [|a s IH].
  { rewrite append_nil. cbn. by destruct (StdString.find_first_not_of chars t). }
  rewrite append_cons. cbn [StdString.find_first_not_of String.length].
  destruct (StdString.contains_char chars a); [|done]. rewrite IH.
  destruct (StdString.find_first_not_of chars s); [done|].
  by destruct (StdString.find_first_not_of chars t).
Qed.

Lemma append_assoc (s t u : string) : (s +:+ t) +:+ u = s +:+ (t +:+ u).
Proof.
  induction s as [|c s IH]; [done|]. by rewrite !append_cons, IH.
Qed.

Lemma append_nil_r (s : string) : s +:+ EmptyString = s.
Proof.
  induction s as [|c s IH]; [done|]. by rewrite append_cons, IH.
Qed.

(** ** [CleanLogLine] *)

(** X1. [CleanLogLine] only removes a prefix: its result is a suffix of the
    line, and the line is returned as it is when no [']'] occurs among its
    first 40 characters. *)
Theorem CleanLogLine_suffix (line : string) :
  (∃ pre, line = pre +:+ CleanLogLine line) ∧
  ((∀ p, StdString.find "]" line = Some p → (40 ≤ p)%nat) →
   CleanLogLine line = line).
Proof.
  unfold CleanLogLine. split.
  - destruct (StdString.find "]" line) as [p|]; [|by exists EmptyString].
    destruct (p <? 40)%nat; [|by exists EmptyString].
    destruct (substr_from_suffix line (p + 1)) as [pre1 Hpre1].
    destruct (StdString.find_first_not_of _ _) as [q|]; [|by exists pre1].
    destruct (substr_from_suffix (StdString.substr_from line (p + 1)) q)
      as [pre2 Hpre2].
    exists (pre1 +:+ pre2). by rewrite append_assoc, <- Hpre2.
  - intros Hfar. destruct (StdString.find "]" line) as [p|]; [|done].
    specialize (Hfar p eq_refl).
    destruct (Nat.ltb_spec p 40); [lia|done].
Qed.

Lemma CleanLogLine_suffix_witness :
  CleanLogLine "a long decoration that runs past forty chars ] x"
  = "a long decoration that runs past forty chars ] x".
Proof.
  apply (proj2 (CleanLogLine_suffix _)).
  intros p Hp. vm_compute in Hp. inversion Hp. lia.
Defined.

(** X2. When [']'] occurs at a position below 40, the result either starts
    with a character that is neither a space nor ['>'], or, when only
    spaces and ['>'] follow the bracket, it is that remainder left
    untrimmed. *)
Theorem CleanLogLine_trims (line : string) (endBracket : nat) :
  StdString.find "]" line = Some endBracket → (endBracket < 40)%nat →
  (∃ c t, CleanLogLine line = String c t ∧ c ≠ " "%char ∧ c ≠ ">"%char) ∨
  (CleanLogLine line = StdString.substr_from line (endBracket + 1) ∧
   StdString.find_first_not_of " >" (CleanLogLine line) = None).
Proof.
  intros Hfind Hlt. unfold CleanLogLine. rewrite Hfind.
  destruct (Nat.ltb_spec endBracket 40); [|lia].
  destruct (StdString.find_first_not_of " >" _) as [q|] eqn:Hq; [left|by right].
  destruct (find_first_not_of_Some _ _ _ Hq) as (_ & c & t & -> & Hc).
  exists c, t. split; [done|].
  cbn in Hc. split; intros ->; by vm_compute in Hc.
Qed.

Lemma CleanLogLine_trims_witness :
  (∃ c t, CleanLogLine "[0] > LogCook: x" = String c t ∧
          c ≠ " "%char ∧ c ≠ ">"%char) ∨
  (CleanLogLine "[0] > LogCook: x"
     = StdString.substr_from "[0] > LogCook: x" (2 + 1) ∧
   StdString.find_first_not_of " >" (CleanLogLine "[0] > LogCook: x") = None).
Proof. apply (CleanLogLine_trims "[0] > LogCook: x" 2); [reflexivity|lia]. Defined.

(** X3. The text that Ctrl+C appends for a record, [CleanLogLine(text +
    "\n")], always ends with the newline.  It is the text of the
    context-menu "Copy", [CleanLogLine(text) + "\n"], except when a bracket
    is stripped and only spaces and ['>'] follow it: then Ctrl+C appends
    the bare newline, while "Copy" keeps the untrimmed remainder. *)
Theorem CleanLogLine_newline (text : string) :
  CleanLogLine (text +:+ newline) = CleanLogLine text +:+ newline ∨
  (CleanLogLine (text +:+ newline) = newline ∧
   StdString.find_first_not_of " >" (CleanLogLine text) = None).
Proof.
  unfold CleanLogLine, newline.
  rewrite (find_char_app "]" text).
  replace (StdString.find "]" (String "010" EmptyString)) with (@None nat) by done.
  destruct (StdString.find "]" text) as [p|] eqn:Hp; [|by left].
  destruct (p <? 40)%nat; [|by left].
  rewrite substr_from_app by (apply find_Some_lt in Hp; lia).
  rewrite find_first_not_of_app.
  destruct (StdString.find_first_not_of " >" (StdString.substr_from text (p + 1)))
    as [q|] eqn:Hq.
  - left. apply find_first_not_of_Some in Hq as [Hq _].
    by rewrite substr_from_app by lia.
  - right.
    replace (StdString.find_first_not_of " >" (String "010" EmptyString))
      with (Some 0%nat) by done.
    cbn [fmap option_fmap option_map].
    rewrite Nat.add_0_r. by rewrite substr_from_length.
Qed.

(** ** More on [LoadFile] *)

Lemma find_char_cons_ne (c a : ascii) (s : string) :
  c ≠ a →
  StdString.find (String c EmptyString) (String a s)
  = S <$> StdString.find (String c EmptyString) s.
Proof.
  intros Hne. cbn [StdString.find StdString.starts_with].
  by destruct (Ascii.eqb_spec c a).
Qed.

Lemma find_char_prefix (c : ascii) (s : string) (p : nat) :
  StdString.find (String c EmptyString) s = Some p →
  StdString.find (String c EmptyString) (StdString.prefix_of_length s p) = None.
Proof.
  revert p. induction s as [|a s IH]; intros p; [done|].
  cbn [StdString.find StdString.starts_with].
  destruct (Ascii.eqb_spec c a) as [->|Hne].
  - by intros [= <-].
  - destruct (StdString.find _ s) as [q|] eqn:Hq; [|done].
    intros [= <-]. cbn [StdString.prefix_of_length].
    by rewrite find_char_cons_ne, (IH q).
Qed.

Lemma starts_with_Log (t : string) :
  StdString.starts_with "Log" t = true →
  ∃ t', t = String "L" (String "o" (String "g" t')).
Proof.
  destruct t as [|a [|b [|c t']]]; cbn [StdString.starts_with];
    repeat match goal with
           | |- context [Ascii.eqb ?x ?y] => destruct (Ascii.eqb_spec x y)
           end; try done.
  subst. by exists t'.
Qed.

Lemma detect_category_shape (line : string) :
  category_shape (detect_category line).
Proof.
  unfold detect_category.
  destruct (StdString.find "Log" line) as [catStart|] eqn:Hlog; [|by left].
  destruct (_ && _); [|by left].
  unfold StdString.find_from, StdString.substr.
  apply find_Some_starts_with in Hlog.
  destruct (StdString.find ":" (StdString.substr_from line catStart))
    as [p|] eqn:Hcolon; [|by left].
  right. cbn [fmap option_fmap option_map].
  replace (catStart + p - catStart)%nat with p by lia.
  split; [|by apply find_char_prefix].
  destruct (starts_with_Log _ Hlog) as [t' Ht]. rewrite Ht in Hcolon |- *.
  rewrite !find_char_cons_ne in Hcolon by done.
  destruct (StdString.find ":" t') as [q|]; [|done].
  injection Hcolon as <-. reflexivity.
Qed.

Lemma category_shape_named (c : string) :
  category_shape c → c ≠ EmptyString ∧ c ≠ "All".
Proof. intros [->|[Hlog _]]; [done|]. split; intros ->; done. Qed.

Section MoreIngestionFacts.
Context `{StdHash}.

Lemma LoadFile_loop_shape lines lvl cat idx st :
  category_shape cat →
  Forall (λ e, category_shape (Category e)) (AllLogs st) →
  Forall (λ e, category_shape (Category e))
         (AllLogs (LoadFile_loop lines lvl cat idx st)).
Proof.
  revert lvl cat idx st.
  induction lines as [|l ls IH]; intros lvl cat idx st Hcat Hst; [done|].
  cbn [LoadFile_loop].
  destruct (found _); [done|].
  destruct (StdString.empty l); [by apply IH|].
  destruct (is_header_line l); apply IH; cbn [push_entry AllLogs];
    try (apply Forall_app; split; [done|]; apply Forall_singleton);
    try done; apply detect_category_shape.
Qed.

Lemma LoadFile_loop_categories (base : gset string) lines lvl cat idx st :
  UniqueCategories st = base ∪ list_to_set (Category <$> AllLogs st) →
  UniqueCategories (LoadFile_loop lines lvl cat idx st)
  = base ∪ list_to_set (Category <$> AllLogs (LoadFile_loop lines lvl cat idx st)).
Proof.
  revert lvl cat idx st.
  induction lines as [|l ls IH]; intros lvl cat idx st Hst; [done|].
  cbn [LoadFile_loop].
  destruct (found _); [done|].
  destruct (StdString.empty l); [by apply IH|].
  destruct (is_header_line l); apply IH;
    cbn [push_entry AllLogs UniqueCategories];
    rewrite Hst, fmap_app, list_to_set_app_L; set_solver.
Qed.

End MoreIngestionFacts.

(** X4. After a load the category set holds ["All"] and the categories of
    the records, and nothing else. *)
Theorem LoadFile_category_set `{StdHash} (st : LogViewerState) (text c : string) :
  c ∈ UniqueCategories (LoadFile st (Some text)) ↔
  c = "All" ∨ ∃ e, e ∈ AllLogs (LoadFile st (Some text)) ∧ Category e = c.
Proof.
  unfold LoadFile. cbn [ApplyFilters UniqueCategories AllLogs].
  rewrite (LoadFile_loop_categories {["All"]}) by (cbn; set_solver).
  rewrite elem_of_union, elem_of_singleton, elem_of_list_to_set, list_elem_of_fmap.
  naive_solver.
Qed.

Lemma LoadFile_category_set_witness :
  "LogTemp" ∈ UniqueCategories sample_state.
Proof.
  apply (LoadFile_category_set (H := fnv1a) g_LogState sample_text "LogTemp").
  right. exists (header_entry (H := fnv1a) "[2] LogTemp: Warning: slow" 4).
  split; [|reflexivity].
  apply list_elem_of_lookup. exists 4%nat. vm_compute. reflexivity.
Defined.

(** X5. Every record of a load has a category that is ["General"] or
    starts with ["Log"] and holds no colon; no category is empty, and none
    is the sentinel ["All"] of the selector. *)
Theorem LoadFile_category_shape `{StdHash} (st : LogViewerState) (text : string)
    (e : LogEntry) :
  e ∈ AllLogs (LoadFile st (Some text)) →
  category_shape (Category e) ∧ Category e ≠ EmptyString ∧ Category e ≠ "All".
Proof.
  rewrite LoadFile_Some_AllLogs. intros He.
  pose proof (LoadFile_loop_shape (StdString.getlines text) Display "General"
                (-1) (clear_logs st) ltac:(by left) ltac:(constructor)) as Hall.
  rewrite Forall_forall in Hall. specialize (Hall e He).
  split; [done|]. by apply category_shape_named.
Qed.

Lemma LoadFile_category_shape_witness :
  let e := header_entry (H := fnv1a) "[2] LogTemp: Warning: slow" 4 in
  e ∈ AllLogs sample_state ∧
  category_shape (Category e) ∧ Category e ≠ EmptyString ∧ Category e ≠ "All".
Proof.
  intros e.
  assert (e ∈ AllLogs sample_state) as He.
  { apply list_elem_of_lookup. exists 4%nat. vm_compute. reflexivity. }
  split; [exact He|].
  exact (LoadFile_category_shape (H := fnv1a) g_LogState sample_text e He).
Defined.

Lemma find_char_None_cons (a c : ascii) (d : string) :
  StdString.find (String a EmptyString) (String c d) = None →
  a ≠ c ∧ StdString.find (String a EmptyString) d = None.
Proof.
  cbn [StdString.find StdString.starts_with].
  destruct (Ascii.eqb_spec a c); [done|].
  by destruct (StdString.find _ d).
Qed.

(** A needle is first found right after a decoration that does not hold
    its first character. *)
Lemma find_after_decoration (a : ascii) (needle d m : string) :
  StdString.find (String a EmptyString) d = None →
  StdString.starts_with (String a needle) m = true →
  StdString.find (String a needle) (d +:+ m) = Some (String.length d).
Proof.
  intros Hd Hm. induction d as [|c d IH].
  - rewrite append_nil. destruct m; cbn [StdString.find]; by rewrite Hm.
  - apply find_char_None_cons in Hd as [Hne Hd].
    rewrite append_cons. cbn [StdString.find StdString.starts_with String.length].
    destruct (Ascii.eqb_spec a c); [done|]. by rewrite IH.
Qed.

(** X6. The fingerprint ignores the decoration in front of the message: two
    header records whose lines are a decoration without the letter [L]
    followed by the same message starting with ["Log"] carry the hash of
    the message, hence the same fingerprint. *)
Theorem fingerprint_ignores_decoration `{StdHash} (st : LogViewerState)
    (text : string) (a b : LogEntry) (d1 d2 m : string) :
  let logs := AllLogs (LoadFile st (Some text)) in
  a ∈ logs → b ∈ logs → IsHeader a = true → IsHeader b = true →
  FullText a = d1 +:+ m → FullText b = d2 +:+ m →
  StdString.find "L" d1 = None → StdString.find "L" d2 = None →
  StdString.starts_with "Log" m = true →
  ContentHash a = std_hash m ∧ ContentHash a = ContentHash b.
Proof.
  intros logs Ha Hb Hha Hhb Hta Htb Hd1 Hd2 Hm. subst logs.
  rewrite LoadFile_Some_AllLogs in Ha, Hb.
  pose proof (LoadFile_loop_headers (StdString.getlines text) Display "General"
                (-1) (clear_logs st) ltac:(constructor)) as Hall.
  rewrite Forall_forall in Hall.
  destruct (Hall a Ha Hha) as (Hhash_a & _). destruct (Hall b Hb Hhb) as (Hhash_b & _).
  assert (∀ d, StdString.find "L" d = None → textToHash (d +:+ m) = m) as Hto.
  { intros d Hd. unfold textToHash.
    rewrite (find_after_decoration "L" "og" d m Hd Hm). apply substr_from_length. }
  rewrite Hta, Hto in Hhash_a by done. rewrite Htb, Hto in Hhash_b by done.
  split; congruence.
Qed.

Lemma fingerprint_ignores_decoration_witness :
  let a := header_entry (H := fnv1a) "[0] LogCook: Error: bad texture" 0 in
  let b := header_entry (H := fnv1a) "[1] LogCook: Error: bad texture" 2 in
  a ∈ AllLogs sample_state ∧ b ∈ AllLogs sample_state ∧
  ContentHash a = fnv1a "LogCook: Error: bad texture" ∧
  ContentHash a = ContentHash b.
Proof.
  intros a b.
  assert (a ∈ AllLogs sample_state) as Ha
    by (apply list_elem_of_lookup; exists 0%nat; vm_compute; reflexivity).
  assert (b ∈ AllLogs sample_state) as Hb
    by (apply list_elem_of_lookup; exists 2%nat; vm_compute; reflexivity).
  split; [exact Ha|]. split; [exact Hb|].
  exact (fingerprint_ignores_decoration (H := fnv1a) g_LogState sample_text a b
           "[0] " "[1] " "LogCook: Error: bad texture"
           Ha Hb eq_refl eq_refl eq_refl eq_refl eq_refl eq_refl eq_refl).
Defined.

(** X7. [ParseProperties] agrees with the parsing that [LoadFile] does
    inline: applied to a header record of a load, it returns the record
    unchanged. *)
Theorem ParseProperties_header `{StdHash} (st : LogViewerState) (text : string)
    (e : LogEntry) :
  e ∈ AllLogs (LoadFile st (Some text)) → IsHeader e = true →
  ParseProperties e = e.
Proof.
  rewrite LoadFile_Some_AllLogs. intros He Hh.
  pose proof (LoadFile_loop_headers (StdString.getlines text) Display "General"
                (-1) (clear_logs st) ltac:(constructor)) as Hall.
  rewrite Forall_forall in Hall. destruct (Hall e He Hh) as (_ & Hcat & Hlevel).
  assert (Category (ParseProperties e) = detect_category (FullText e)) as Hc
    by reflexivity.
  assert (Level (ParseProperties e) = detect_level (FullText e)) as Hl
    by reflexivity.
  rewrite <- Hcat in Hc. rewrite <- Hlevel in Hl.
  destruct e; unfold ParseProperties in *; cbn in Hc, Hl |- *. by rewrite Hc, Hl.
Qed.

Lemma ParseProperties_header_witness :
  let e := header_entry (H := fnv1a) "[2] LogTemp: Warning: slow" 4 in
  e ∈ AllLogs sample_state ∧ ParseProperties e = e.
Proof.
  intros e.
  assert (e ∈ AllLogs sample_state) as He
    by (apply list_elem_of_lookup; exists 4%nat; vm_compute; reflexivity).
  split; [exact He|].
  exact (ParseProperties_header (H := fnv1a) g_LogState sample_text e He eq_refl).
Defined.

Section KeptLines.
Context `{StdHash}.

Lemma LoadFile_loop_kept lines lvl cat idx st :
  LoadFile_loop lines lvl cat idx st
  = LoadFile_loop (kept_lines lines) lvl cat idx st.
Proof.
  revert lvl cat idx st.
  induction lines as [|l ls IH]; intros lvl cat idx st; [done|].
  rewrite kept_lines_cons. cbn [LoadFile_loop].
  destruct (found _) eqn:Hmarker; [done|].
  destruct (StdString.empty l) eqn:Hempty; [apply IH|].
  cbn [LoadFile_loop]. rewrite Hmarker, Hempty.
  destruct (is_header_line l); apply IH.
Qed.

End KeptLines.

(** X8. The state after a load depends on the text only through its
    non-empty lines before the summary marker: empty lines and everything
    from the marker on have no influence. *)
Theorem LoadFile_reads_kept_lines `{StdHash} (st : LogViewerState)
    (text1 text2 : string) :
  kept_lines (StdString.getlines text1) = kept_lines (StdString.getlines text2) →
  LoadFile st (Some text1) = LoadFile st (Some text2).
Proof.
  intros Hkept. unfold LoadFile.
  by rewrite (LoadFile_loop_kept (StdString.getlines text1)),
             (LoadFile_loop_kept (StdString.getlines text2)), Hkept.
Qed.

Lemma LoadFile_reads_kept_lines_witness :
  LoadFile (H := fnv1a) g_LogState (Some sample_text)
  = LoadFile (H := fnv1a) g_LogState
      (Some ("[0] LogCook: Error: bad texture" +:+ newline +:+
             "   continuation info" +:+ newline +:+
             "[1] LogCook: Error: bad texture" +:+ newline +:+
             "   again" +:+ newline +:+
             "[2] LogTemp: Warning: slow")).
Proof.
  apply (LoadFile_reads_kept_lines (H := fnv1a)). vm_compute. reflexivity.
Defined.

(** ** [ParseLogLine] against [ParseProperties] *)

Lemma get_substr_from (s : string) (p : nat) (c : ascii) (t : string) :
  StdString.substr_from s p = String c t → String.get p s = Some c.
Proof.
  revert s. induction p as [|p IH]; intros s; destruct s as [|a s]; cbn; try done.
  - by intros [= -> _].
  - apply IH.
Qed.

(** X9. Parsing again with [ParseProperties] what [ParseLogLine] produced
    never lowers the level, and keeps the category when the first ["Log"]
    of the line is the one that directly follows a [']']. *)
Theorem ParseLogLine_ParseProperties (line : string) (entry : LogEntry) :
  let a := ParseLogLine line entry in
  let b := ParseProperties a in
  (LogLevel_to_nat (Level a) ≤ LogLevel_to_nat (Level b))%nat ∧
  (∀ p, StdString.find "]Log" line = Some p →
        StdString.find "Log" line = Some (S p) →
        Category a = Category b).
Proof.
  intros a b. subst a b. split.
  - cbn [ParseProperties ParseLogLine Level FullText].
    destruct (found (StdString.find "Error:" line)),
             (found (StdString.find "Critical:" line)),
             (found (StdString.find "Fatal:" line)),
             (found (StdString.find "Warning:" line)); cbn; lia.
  - intros p Hbracket Hlog.
    cbn [ParseProperties ParseLogLine Category FullText].
    rewrite Hbracket, Hlog.
    apply find_Some_starts_with in Hbracket.
    destruct (StdString.substr_from line p) as [|c t] eqn:Hsub; [done|].
    cbn [StdString.starts_with] in Hbracket.
    destruct (Ascii.eqb_spec "]" c) as [<-|]; [|done].
    unfold StdString.at_. replace (S p - 1)%nat with p by lia.
    by rewrite (get_substr_from _ _ _ _ Hsub).
Qed.

Lemma ParseLogLine_ParseProperties_witness :
  Category (ParseLogLine "[0]LogTemp: x" (header_entry (H := fnv1a) EmptyString 0))
  = Category (ParseProperties
      (ParseLogLine "[0]LogTemp: x" (header_entry (H := fnv1a) EmptyString 0))).
Proof.
  exact (proj2 (ParseLogLine_ParseProperties "[0]LogTemp: x"
                  (header_entry (H := fnv1a) EmptyString 0)) 2%nat eq_refl eq_refl).
Defined.

(** ** More on [ApplyFilters] *)

Lemma StronglySorted_filter_seq (P : nat → Prop) `{∀ k, Decision (P k)} (a n : nat) :
  StronglySorted Z.lt (Z.of_nat <$> filter P (seq a n)).
Proof.
  revert a. induction n as [|n IH]; intros a; [constructor|].
  cbn [seq]. rewrite filter_cons. case_decide; [|apply IH].
  rewrite fmap_cons. constructor; [apply IH|].
  apply Forall_fmap, Forall_forall.
  intros k [_ Hk%elem_of_seq]%list_elem_of_filter. simpl. lia.
Qed.

(** X10. The view that [ApplyFilters] computes is strictly increasing and
    holds positions of the record vector only, so every row of the list
    reads an existing record. *)
Theorem ApplyFilters_view_valid (st : LogViewerState) :
  let view := FilteredIndices (ApplyFilters st) in
  StronglySorted Z.lt view ∧
  (∀ i, i ∈ view → 0 ≤ i < Z.of_nat (length (AllLogs st))) ∧
  Forall is_Some (VisibleRows (ApplyFilters st)).
Proof.
  intros view. subst view.
  assert (∀ i, i ∈ FilteredIndices (ApplyFilters st) →
               0 ≤ i < Z.of_nat (length (AllLogs st))) as Hrange.
  { cbn [ApplyFilters FilteredIndices]. rewrite loop_pushed.
    intros i (k & -> & [_ Hk%elem_of_seq]%list_elem_of_filter)%list_elem_of_fmap.
    lia. }
  split; [|split; [done|]].
  - cbn [ApplyFilters FilteredIndices]. rewrite loop_pushed.
    apply StronglySorted_filter_seq.
  - unfold VisibleRows. apply Forall_fmap, Forall_forall. intros i Hi.
    apply Hrange in Hi. cbn [ApplyFilters AllLogs]. simpl.
    apply lookup_lt_is_Some. lia.
Qed.

Lemma ApplyFilters_view_valid_witness :
  Forall is_Some (VisibleRows (ApplyFilters (set_ShowDuplicates false sample_state))).
Proof.
  exact (proj2 (proj2 (ApplyFilters_view_valid
                         (set_ShowDuplicates false sample_state)))).
Defined.

(** X11. A record in the view passes every filter: its level is switched
    on, the selected category is ["All"] or its own, and the lower-cased
    search text is empty or occurs in its lower-cased text. *)
Theorem ApplyFilters_view_sound (st : LogViewerState) (i : Z) :
  i ∈ FilteredIndices (ApplyFilters st) →
  ∃ r, AllLogs st !! Z.to_nat i = Some r ∧
       (Level r = Error → ShowErrors st = true) ∧
       (Level r = Warning → ShowWarnings st = true) ∧
       (Level r = Display → ShowDisplay st = true) ∧
       (SelectedCategory st = "All" ∨ Category r = SelectedCategory st) ∧
       (StdString.tolower (SearchBuffer st) = EmptyString ∨
        found (StdString.find (StdString.tolower (SearchBuffer st))
                 (StdString.tolower (FullText r))) = true).
Proof.
  cbn [ApplyFilters FilteredIndices]. intros Hi.
  assert (∃ k : nat, i = Z.of_nat k) as [k ->].
  { rewrite loop_pushed in Hi.
    apply list_elem_of_fmap in Hi as (k & -> & _). by exists k. }
  apply elem_of_pushed, shown_iff in Hi as (r & Hr & _ & Hpass).
  exists r. rewrite Nat2Z.id. split; [done|].
  by apply StandardFilters_true_iff.
Qed.

Lemma ApplyFilters_view_sound_witness :
  ∃ r, AllLogs (set_ShowErrors false sample_state) !! Z.to_nat 4 = Some r ∧
       (Level r = Error → ShowErrors (set_ShowErrors false sample_state) = true) ∧
       Level r = Warning.
Proof.
  destruct (ApplyFilters_view_sound (set_ShowErrors false sample_state) 4)
    as (r & Hr & Herr & _).
  - vm_compute. left.
  - exists r. split; [exact Hr|]. split; [exact Herr|].
    vm_compute in Hr. by inversion Hr.
Defined.

Section FirstOccurrence.
Variable st : LogViewerState.

Lemma first_header_not_skipped (logs : list LogEntry) (j : nat) (b : LogEntry) :
  logs !! j = Some b → IsHeader b = true →
  (∀ i a, (i < j)%nat → logs !! i = Some a → IsHeader a = true →
          ContentHash a ≠ ContentHash b) →
  isSkippingDuplicates (ApplyFilters_loop st (take (S j) logs)) = false.
Proof.
  intros Hj Hb Hfirst.
  rewrite (take_S_r _ _ _ Hj), loop_skipping_snoc, Hb.
  apply andb_false_iff. right. apply bool_decide_eq_false.
  rewrite loop_seen. intros (a & [i Hi]%list_elem_of_lookup & Ha & Hab).
  apply lookup_take_Some in Hi as [Hi Hlt].
  by apply (Hfirst i a).
Qed.

Lemma headerless_prefix_not_skipped (logs : list LogEntry) :
  (∀ e, e ∈ logs → IsHeader e = false) →
  isSkippingDuplicates (ApplyFilters_loop st logs) = false.
Proof.
  induction logs as [|x logs IH] using rev_ind; intros Hno; [done|].
  rewrite loop_skipping_snoc.
  rewrite (Hno x) by (apply elem_of_app; right; by left).
  apply IH. intros e He. apply Hno, elem_of_app. by left.
Qed.

End FirstOccurrence.

(** X12. The duplicate rule never hides a first occurrence: a header whose
    fingerprint no earlier header carries, and the continuation records
    that follow it up to the next header, are in the view exactly when
    they pass the standard filters, whether duplicates are shown or not.
    The same holds for the records before the first header. *)
Theorem first_occurrence_not_suppressed (st : LogViewerState) (k : nat)
    (r : LogEntry) :
  let logs := AllLogs st in
  let view := FilteredIndices (ApplyFilters st) in
  logs !! k = Some r →
  (∀ (j : nat) (b : LogEntry),
     (j ≤ k)%nat → logs !! j = Some b → IsHeader b = true →
     (∀ i a, (i < j)%nat → logs !! i = Some a → IsHeader a = true →
             ContentHash a ≠ ContentHash b) →
     (∀ m e, (j < m ≤ k)%nat → logs !! m = Some e → IsHeader e = false) →
     (Z.of_nat k ∈ view ↔
      StandardFilters st (StdString.tolower (SearchBuffer st)) r = true)) ∧
  ((∀ m e, (m ≤ k)%nat → logs !! m = Some e → IsHeader e = false) →
     (Z.of_nat k ∈ view ↔
      StandardFilters st (StdString.tolower (SearchBuffer st)) r = true)).
Proof.
  intros logs view Hk. subst logs view. cbn [ApplyFilters FilteredIndices].
  assert (isSkippingDuplicates (ApplyFilters_loop st (take (S k) (AllLogs st)))
          = false →
          (Z.of_nat k ∈ pushed (ApplyFilters_loop st (AllLogs st)) ↔
           StandardFilters st (StdString.tolower (SearchBuffer st)) r = true))
    as Hview.
  { intros Hoff. rewrite elem_of_pushed, shown_iff. split.
    - intros (r' & Hr' & _ & Hpass). congruence.
    - intros Hpass. by exists r. }
  split.
  - intros j b Hjk Hj Hb Hfirst Hblock. apply Hview.
    replace k with (j + (k - j))%nat by lia.
    rewrite block_keeps_flag by (intros m e ?; apply Hblock; lia).
    by apply (first_header_not_skipped st _ j b).
  - intros Hnone. apply Hview. apply headerless_prefix_not_skipped.
    intros e [m Hm]%list_elem_of_lookup.
    apply lookup_take_Some in Hm as [Hm Hlt]. apply (Hnone m e); [lia|done].
Qed.

Lemma first_occurrence_not_suppressed_witness :
  4 ∈ FilteredIndices (ApplyFilters (set_ShowDuplicates false sample_state)).
Proof.
  edestruct (first_occurrence_not_suppressed
               (set_ShowDuplicates false sample_state) 4) as [Hfirst _];
    [vm_compute; reflexivity|].
  eapply (Hfirst 4%nat); [lia|vm_compute; reflexivity|reflexivity| |lia|reflexivity].
  intros i a Hi Ha _.
  destruct i as [|[|[|[|i]]]]; [vm_compute in Ha; by inversion Ha..|lia].
Defined.

(** X13. With duplicate suppression enabled, no two header records of the
    view carry the same fingerprint. *)
Theorem visible_headers_distinct (st : LogViewerState) (i j : nat) (a b : LogEntry) :
  let view := FilteredIndices (ApplyFilters st) in
  ShowDuplicates st = false → i ≠ j →
  Z.of_nat i ∈ view → Z.of_nat j ∈ view →
  AllLogs st !! i = Some a → AllLogs st !! j = Some b →
  IsHeader a = true → IsHeader b = true →
  ContentHash a ≠ ContentHash b.
Proof.
  intros view Hsd Hij Hi Hj Ha Hb Hha Hhb Hab. subst view.
  cbn [ApplyFilters FilteredIndices] in Hi, Hj.
  apply elem_of_pushed, shown_iff in Hi as (_ & _ & Hoff_i & _).
  apply elem_of_pushed, shown_iff in Hj as (_ & _ & Hoff_j & _).
  destruct (Nat.lt_total i j) as [Hlt|[->|Hlt]]; [|done|].
  - rewrite (duplicate_header_skipped st _ i j a b) in Hoff_j; done.
  - rewrite (duplicate_header_skipped st _ j i b a) in Hoff_i; done.
Qed.

Lemma visible_headers_distinct_witness :
  ∃ a b, AllLogs sample_state !! 0%nat = Some a ∧
         AllLogs sample_state !! 4%nat = Some b ∧
         ContentHash a ≠ ContentHash b.
Proof.
  eexists _, _. split; [vm_compute; reflexivity|]. split; [vm_compute; reflexivity|].
  eapply (visible_headers_distinct (set_ShowDuplicates false sample_state) 0 4);
    [reflexivity|lia|vm_compute; left|vm_compute; do 2 right; left
     |vm_compute; reflexivity|vm_compute; reflexivity|reflexivity|reflexivity].
Defined.

(** ** Selection *)

Lemma vector_at_Some {A} (v : list A) (i : Z) (x : A) :
  vector_at v i = Some x ↔ 0 ≤ i ∧ v !! Z.to_nat i = Some x.
Proof.
  unfold vector_at. destruct (Z.ltb_spec i 0); [|tauto].
  split; [done|]. lia.
Qed.

Lemma elem_of_fold_insert (l : list Z) (acc : gset Z) (x : Z) :
  x ∈ fold_left (λ selected n, {[n]} ∪ selected) l acc ↔ x ∈ l ∨ x ∈ acc.
Proof.
  revert acc. induction l as [|n l IH]; intros acc; cbn [fold_left].
  - rewrite elem_of_nil. tauto.
  - rewrite IH, elem_of_cons, elem_of_union, elem_of_singleton. tauto.
Qed.

Lemma elem_of_insert_range (start end_ x : Z) :
  x ∈ insert_range start end_ ↔ start ≤ x ≤ end_.
Proof.
  unfold insert_range. rewrite elem_of_fold_insert, elem_of_seqZ, elem_of_empty. lia.
Qed.

(** X14. A Shift+click on a drawn row, with an anchor set and Ctrl up,
    replaces the selection by the rows between the anchor and the clicked
    row, both included, whichever of the two comes first; the anchor, the
    context focus, the view and the records are left as they are. *)
Theorem ClickRow_range (st : LogViewerState) (g i : Z) :
  is_Some (row_log st i) → LastClickedIndex st ≠ -1 →
  ∃ st', ClickRow st g i false true = Some (st', g) ∧
         (∀ x, x ∈ SelectedIndices st' ↔
               Z.min (LastClickedIndex st) i ≤ x ≤ Z.max (LastClickedIndex st) i) ∧
         LastClickedIndex st' = LastClickedIndex st ∧
         FilteredIndices st' = FilteredIndices st ∧
         AllLogs st' = AllLogs st.
Proof.
  intros [log Hlog] Hanchor. unfold ClickRow. rewrite Hlog.
  destruct (Z.eqb_spec (LastClickedIndex st) (-1)); [done|]. cbn [andb negb].
  eexists. split; [reflexivity|]. cbn [set_selection SelectedIndices
    LastClickedIndex FilteredIndices AllLogs].
  split; [|done]. intros x. apply elem_of_insert_range.
Qed.

(** The sample with row 3 clicked, then row 1 Shift+clicked. *)
Lemma ClickRow_range_witness :
  ∃ st1 st2,
    ClickRow sample_state (-1) 3 false false = Some (st1, 3) ∧
    ClickRow st1 3 1 false true = Some (st2, 3) ∧
    (∀ x, x ∈ SelectedIndices st2 ↔ 1 ≤ x ≤ 3).
Proof.
  eexists. 
  destruct (ClickRow_range
              (set_selection ({[3]} ∪ ∅) 3 sample_state) 3 1)
    as (st2 & Hclick & Hsel & _).
  - vm_compute. eauto.
  - vm_compute. discriminate.
  - exists st2. split; [vm_compute; reflexivity|]. split; [exact Hclick|].
    exact Hsel.
Defined.

(** X15. A Ctrl+click toggles the clicked row and makes it the anchor,
    whatever the Shift key; a second Ctrl+click on the same row restores
    the selection.  The context focus is not touched. *)
Theorem ClickRow_toggle_twice (st st1 st2 : LogViewerState) (g g1 g2 i : Z)
    (shift1 shift2 : bool) :
  ClickRow st g i true shift1 = Some (st1, g1) →
  ClickRow st1 g1 i true shift2 = Some (st2, g2) →
  (i ∈ SelectedIndices st1 ↔ i ∉ SelectedIndices st) ∧
  (∀ x, x ≠ i → (x ∈ SelectedIndices st1 ↔ x ∈ SelectedIndices st)) ∧
  LastClickedIndex st1 = i ∧
  SelectedIndices st2 = SelectedIndices st ∧
  g1 = g ∧ g2 = g.
Proof.
  unfold ClickRow. destruct (row_log st i) as [log|] eqn:Hlog; [|done].
  intros [= <- <-].
  assert (row_log (set_selection
            (if bool_decide (i ∈ SelectedIndices st)
             then SelectedIndices st ∖ {[i]} else {[i]} ∪ SelectedIndices st)
            i st) i = Some log) as -> by exact Hlog.
  intros [= <- <-]. cbn [set_selection SelectedIndices LastClickedIndex].
  destruct (decide (i ∈ SelectedIndices st)) as [Hin|Hout].
  - rewrite (bool_decide_eq_true_2 _ Hin).
    rewrite bool_decide_eq_false_2 by set_solver.
    split; [set_solver|]. split; [set_solver|]. split; [done|].
    split; [|done]. apply set_eq. intros x.
    destruct (decide (x = i)); set_solver.
  - rewrite (bool_decide_eq_false_2 _ Hout).
    rewrite bool_decide_eq_true_2 by set_solver.
    split; [set_solver|]. split; [set_solver|]. split; [done|].
    split; [|done]. set_solver.
Qed.

Lemma ClickRow_toggle_twice_witness :
  ∃ st1 st2,
    ClickRow sample_state 7 2 true false = Some (st1, 7) ∧
    ClickRow st1 7 2 true true = Some (st2, 7) ∧
    SelectedIndices st2 = SelectedIndices sample_state.
Proof.
  eexists _, _. split; [vm_compute; reflexivity|]. split; [vm_compute; reflexivity|].
  refine (proj1 (proj2 (proj2 (proj2
    (ClickRow_toggle_twice sample_state _ _ 7 7 7 2 false true _ _))))).
  - vm_compute. reflexivity.
  - vm_compute. reflexivity.
Defined.

(** ** The context focus *)

Lemma LoadFile_LogIndex `{StdHash} (st : LogViewerState) (text : string)
    (k : nat) (e : LogEntry) :
  AllLogs (LoadFile st (Some text)) !! k = Some e → LogIndex e = Z.of_nat k.
Proof.
  rewrite LoadFile_Some_AllLogs. intros Hk.
  pose proof (LoadFile_loop_indices (StdString.getlines text) Display "General"
                (-1) (clear_logs st)) as Hidx.
  cbn [clear_logs AllLogs fmap list_fmap app] in Hidx.
  assert ((LogIndex <$> AllLogs (LoadFile_loop (StdString.getlines text) Display
             "General" (-1) (clear_logs st))) !! k = Some (LogIndex e)) as Hlook
    by (by rewrite list_lookup_fmap, Hk).
  rewrite Hidx in Hlook. apply lookup_seqZ in Hlook. lia.
Qed.

(** X16. On the records of a load, a plain click on a drawn row selects
    that row alone, makes it the anchor, and sets the context focus to the
    raw position of the row's record; when the record count fits an [int],
    the context window of that focus is shown and holds the record. *)
Theorem ClickRow_plain_focus `{StdHash} (st0 st st' : LogViewerState)
    (text : string) (g g' i : Z) :
  AllLogs st = AllLogs (LoadFile st0 (Some text)) →
  Z.of_nat (length (AllLogs st)) < 2 ^ 31 →
  ClickRow st g i false false = Some (st', g') →
  vector_at (FilteredIndices st) i = Some g' ∧
  SelectedIndices st' = {[i]} ∧
  LastClickedIndex st' = i ∧
  ∃ w log, row_log st i = Some log ∧
           ContextWindow st' g' = Some w ∧ (g', Some log) ∈ w.
Proof.
  intros Hlogs Hsize. unfold ClickRow.
  destruct (row_log st i) as [log|] eqn:Hlog; [|done]. cbn [andb].
  intros [= <- <-]. cbn [set_selection SelectedIndices LastClickedIndex].
  unfold row_log in Hlog.
  destruct (vector_at (FilteredIndices st) i) as [o|] eqn:Ho; [|done].
  apply vector_at_Some in Hlog as [Hpos Hlook].
  assert (LogIndex log = o) as Hfocus.
  { rewrite Hlogs in Hlook. rewrite (LoadFile_LogIndex _ _ _ _ Hlook). lia. }
  rewrite Hfocus. split; [done|]. split; [by rewrite (right_id_L ∅ (∪))|].
  split; [done|].
  pose proof (lookup_lt_Some _ _ _ Hlook) as Hlt.
  eexists _, log. split; [done|]. unfold ContextWindow. cbn [set_selection AllLogs].
  rewrite Z.mod_small by lia.
  destruct (Z.eqb_spec o (-1)); [lia|].
  destruct (Z.ltb_spec o (Z.of_nat (length (AllLogs st)))); [|lia]. cbn [negb andb].
  split; [reflexivity|].
  apply list_elem_of_fmap. exists o. split; [by rewrite Hlook|].
  apply elem_of_seqZ. lia.
Qed.

Lemma ClickRow_plain_focus_witness :
  let st := ApplyFilters (set_ShowErrors false sample_state) in
  ∃ st', ClickRow st (-1) 0 false false = Some (st', 4) ∧
         vector_at (FilteredIndices st) 0 = Some 4 ∧
         SelectedIndices st' = {[0]}.
Proof.
  intros st. exists (set_selection ({[0]} ∪ ∅) 0 st).
  assert (ClickRow st (-1) 0 false false
          = Some (set_selection ({[0]} ∪ ∅) 0 st, 4)) as Hclick
    by (vm_compute; reflexivity).
  split; [exact Hclick|].
  assert (AllLogs st = AllLogs (LoadFile (H := fnv1a) g_LogState (Some sample_text)))
    as Hlogs by (vm_compute; reflexivity).
  assert (Z.of_nat (length (AllLogs st)) < 2 ^ 31) as Hsize
    by (vm_compute; reflexivity).
  destruct (ClickRow_plain_focus (H := fnv1a) g_LogState st _ sample_text
              (-1) 4 0 Hlogs Hsize Hclick) as (Hrow & Hsel & _).
  split; [exact Hrow|exact Hsel].
Defined.

(** X17. For a focus that is an [int] and a record count that fits an
    [int], the context window is shown exactly when the focus is a
    position of the record vector, and every row it shows reads an
    existing record: a focus kept from a longer file is harmless. *)
Theorem ContextWindow_in_bounds (st : LogViewerState) (g : Z) :
  let n := Z.of_nat (length (AllLogs st)) in
  - 2 ^ 31 ≤ g < 2 ^ 31 → n < 2 ^ 31 →
  (is_Some (ContextWindow st g) ↔ 0 ≤ g < n) ∧
  (∀ w, ContextWindow st g = Some w → Forall (λ row, is_Some row.2) w).
Proof.
  intros n Hg Hn. unfold ContextWindow. fold n.
  destruct (Z.eqb_spec g (-1)) as [->|Hne]; cbn [negb andb].
  { split; [|done]. split; [by intros [? ?]|lia]. }
  destruct (Z.ltb_spec (g mod 2 ^ 64) n) as [Hlt|Hge].
  - assert (0 ≤ g).
    { destruct (Z.lt_ge_cases g 0); [|done].
      rewrite <- (Z.mod_add g 1 (2 ^ 64)) in Hlt by lia.
      rewrite Z.mod_small in Hlt by lia. lia. }
    rewrite Z.mod_small in Hlt by lia.
    split; [split; [lia|eauto]|].
    intros w [= <-]. apply Forall_fmap, Forall_forall.
    intros i Hi%elem_of_seqZ. cbn. apply lookup_lt_is_Some. lia.
  - split; [|done]. split; [by intros [? ?]|].
    intros ?. rewrite Z.mod_small in Hge by lia. lia.
Qed.

Lemma ContextWindow_in_bounds_witness :
  ContextWindow (numbered_state 3) 7 = None.
Proof.
  destruct (ContextWindow_in_bounds (numbered_state 3) 7) as [Hshown _].
  - lia.
  - vm_compute. reflexivity.
  - destruct (ContextWindow (numbered_state 3) 7) as [w|] eqn:Hw; [|reflexivity].
    assert (0 ≤ 7 < Z.of_nat (length (AllLogs (numbered_state 3)))) as [_ Hlt]
      by (apply Hshown; by eexists).
    vm_compute in Hlt. discriminate.
Defined.

(** ** "Filter to this Category" *)

(** X18. Choosing "Filter to this Category" on a record of the current
    view whose category is not empty selects that category and recomputes
    the view: the record stays in the view, the new view is a subsequence
    of the old one, and, unless the category is the sentinel ["All"], every
    record of the new view has that category. *)
Theorem FilterToCategory_keeps_row (st : LogViewerState) (k : nat) (log : LogEntry) :
  Z.of_nat k ∈ FilteredIndices (ApplyFilters st) →
  AllLogs st !! k = Some log → Category log ≠ EmptyString →
  let st' := FilterToCategory st log in
  SelectedCategory st' = Category log ∧
  Z.of_nat k ∈ FilteredIndices st' ∧
  FilteredIndices st' `sublist_of` FilteredIndices (ApplyFilters st) ∧
  (Category log ≠ "All" →
   ∀ i, i ∈ FilteredIndices st' →
        ∃ e, AllLogs st !! Z.to_nat i = Some e ∧ Category e = Category log).
Proof.
  intros Hk Hlog Hne st'. subst st'. unfold FilterToCategory.
  destruct (StdString.empty (Category log)) eqn:Hempty;
    [by apply empty_true_iff in Hempty|]. cbn [negb].
  set (st2 := set_SelectedCategory (Category log)
                (set_SelectedCategory (Category log) st)).
  cbn [ApplyFilters FilteredIndices SelectedCategory AllLogs] in Hk |- *.
  change (AllLogs st2) with (AllLogs st).
  apply elem_of_pushed, shown_iff in Hk as (r & Hr & Hoff & Hpass).
  assert (r = log) as -> by congruence.
  apply StandardFilters_true_iff in Hpass as (He & Hw & Hd & Hcat & Hsearch).
  split; [done|]. split; [|split].
  - apply elem_of_pushed, shown_iff. exists log. split; [done|]. split.
    + by rewrite (loop_skipping_indep st2 st).
    + apply StandardFilters_true_iff. repeat split; try done. by right.
  - apply view_sublist_standard; [done|]. intros e.
    rewrite !StandardFilters_true_iff.
    cbn [st2 set_SelectedCategory ShowErrors ShowWarnings ShowDisplay
         SelectedCategory SearchBuffer].
    intros (?&?&?&Hcat'&?). repeat split; try done.
    destruct Hcat as [Hall|Hsame]; [by left|]. rewrite <- Hsame. done.
  - intros Hnot_all i Hi.
    assert (∃ j : nat, i = Z.of_nat j) as [j ->].
    { rewrite loop_pushed in Hi.
      apply list_elem_of_fmap in Hi as (j & -> & _). by exists j. }
    apply elem_of_pushed, shown_iff in Hi as (e & He' & _ & Hpass).
    apply StandardFilters_true_iff in Hpass as (_ & _ & _ & [Hall|Hsame] & _);
      [done|].
    exists e. by rewrite Nat2Z.id.
Qed.

Lemma FilterToCategory_keeps_row_witness :
  let log := header_entry (H := fnv1a) "[2] LogTemp: Warning: slow" 4 in
  SelectedCategory (FilterToCategory sample_state log) = "LogTemp" ∧
  4 ∈ FilteredIndices (FilterToCategory sample_state log).
Proof.
  intros log.
  destruct (FilterToCategory_keeps_row sample_state 4 log) as (Hsel & Hrow & _).
  - vm_compute. do 4 right. left.
  - vm_compute. reflexivity.
  - discriminate.
  - split; [exact Hsel|exact Hrow].
Defined.

(** ** Ctrl+C *)

Lemma nul_free_app (s t : string) :
  nul_free (s +:+ t) ↔ nul_free s ∧ nul_free t.
Proof.
  unfold nul_free. induction s as [|c s IH].
  - rewrite append_nil. cbn. rewrite Forall_nil. tauto.
  - rewrite append_cons. cbn [list_ascii_of_string].
    rewrite !Forall_cons, IH. tauto.
Qed.

Lemma c_str_nul_free (s : string) : nul_free s → StdString.c_str s = s.
Proof.
  unfold nul_free. induction s as [|c s IH]; [done|].
  cbn [list_ascii_of_string StdString.c_str]. intros [Hc Hs]%Forall_cons.
  destruct (Ascii.eqb_spec c "000"); [done|]. by rewrite IH.
Qed.

Lemma substr_from_nul_free (s : string) (p : nat) :
  nul_free s → nul_free (StdString.substr_from s p).
Proof.
  destruct (substr_from_suffix s p) as [pre Hpre]. intros Hs.
  rewrite Hpre in Hs. by apply nul_free_app in Hs as [_ ?].
Qed.

Lemma CleanLogLine_nul_free (line : string) :
  nul_free line → nul_free (CleanLogLine line).
Proof.
  intros Hline. unfold CleanLogLine.
  destruct (StdString.find "]" line) as [p|]; [|done].
  destruct (p <? 40)%nat; [|done].
  destruct (StdString.find_first_not_of _ _); by repeat apply substr_from_nul_free.
Qed.

Lemma copy_body_nul_free (rows : list LogEntry) :
  Forall (λ log, nul_free (FullText log)) rows → nul_free (copy_body rows).
Proof.
  induction 1 as [|log rows Hlog _ IH]; [constructor|].
  cbn [copy_body fold_right]. apply nul_free_app. split; [|done].
  apply CleanLogLine_nul_free, nul_free_app. split; [done|].
  repeat constructor. discriminate.
Qed.

(** Without a NUL in the exported records the clipboard receives the
    whole text. *)
Lemma c_str_clipboard_text (rows : list LogEntry) :
  Forall (λ log, nul_free (FullText log)) rows →
  StdString.c_str (("```" +:+ String "010" EmptyString) +:+ copy_body rows +:+ "```")
  = ("```" +:+ String "010" EmptyString) +:+ copy_body rows +:+ "```".
Proof.
  intros Hrows. apply c_str_nul_free, nul_free_app. split.
  { repeat constructor; discriminate. }
  apply nul_free_app. split; [by apply copy_body_nul_free|].
  repeat constructor; discriminate.
Qed.

Lemma row_log_in_view (st : LogViewerState) (idx : Z) :
  view_in_bounds st →
  0 ≤ idx < Z.of_nat (length (FilteredIndices st)) →
  is_Some (row_log st idx).
Proof.
  intros Hview Hidx. unfold row_log, vector_at.
  destruct (Z.ltb_spec idx 0); [lia|].
  destruct (lookup_lt_is_Some_2 (FilteredIndices st) (Z.to_nat idx)) as [o Ho];
    [lia|]. rewrite Ho.
  destruct (Hview o) as [Hpos Hlt]; [by eapply list_elem_of_lookup_2|].
  destruct (Z.ltb_spec o 0); [lia|].
  apply lookup_lt_is_Some_2. lia.
Qed.

Lemma copy_line_row (st : LogViewerState) (idx : Z) (log : LogEntry) :
  row_log st idx = Some log →
  copy_line st idx
  = Some (CleanLogLine (FullText log +:+ String "010" EmptyString)).
Proof.
  intros Hrow. unfold copy_line. rewrite Hrow.
  unfold row_log in Hrow.
  destruct (vector_at (FilteredIndices st) idx) as [o|] eqn:Ho; [|done].
  apply vector_at_Some in Ho as [Hpos Ho]. apply lookup_lt_Some in Ho.
  destruct (Z.leb_spec 0 idx); [|lia].
  destruct (Z.ltb_spec idx (Z.of_nat (length (FilteredIndices st)))); [done|lia].
Qed.

Lemma copy_line_outside (st : LogViewerState) (idx : Z) :
  ¬ (0 ≤ idx < Z.of_nat (length (FilteredIndices st))) →
  copy_line st idx = Some EmptyString.
Proof.
  intros Hout. unfold copy_line.
  destruct (Z.leb_spec 0 idx); [|done].
  destruct (Z.ltb_spec idx (Z.of_nat (length (FilteredIndices st)))); [lia|done].
Qed.

Lemma copy_lines_rows (st : LogViewerState) (indices : list Z)
    (rows : list LogEntry) (acc : string) :
  Forall2 (λ idx log, row_log st idx = Some log) indices rows →
  copy_lines st indices acc = Some (acc +:+ copy_body rows).
Proof.
  intros Hrows. revert acc.
  induction Hrows as [|idx log indices rows Hrow _ IH]; intros acc.
  { cbn. by rewrite append_nil_r. }
  cbn [copy_lines copy_body fold_right]. rewrite (copy_line_row _ _ _ Hrow), IH.
  by rewrite append_assoc.
Qed.

(** The loop appends the lines of the selected indices that are rows of
    the view, and nothing for the others. *)
Lemma copy_lines_in_view (st : LogViewerState) (indices : list Z) (acc : string) :
  view_in_bounds st →
  ∃ rows,
    Forall2 (λ idx log, row_log st idx = Some log)
            (filter (λ idx, 0 ≤ idx < Z.of_nat (length (FilteredIndices st)))
                    indices)
            rows ∧
    copy_lines st indices acc = Some (acc +:+ copy_body rows).
Proof.
  intros Hview. revert acc.
  induction indices as [|idx rest IH]; intros acc.
  { exists []. split; [constructor|]. cbn. by rewrite append_nil_r. }
  cbn [copy_lines]. rewrite filter_cons. case_decide as Hidx.
  - destruct (row_log_in_view st idx Hview Hidx) as [log Hlog].
    rewrite (copy_line_row _ _ _ Hlog).
    destruct (IH (acc +:+ CleanLogLine (FullText log +:+ String "010" EmptyString)))
      as (rows & Hrows & ->).
    exists (log :: rows). split; [by constructor|].
    cbn [copy_body fold_right]. by rewrite append_assoc.
  - rewrite (copy_line_outside _ _ Hidx), append_nil_r. apply IH.
Qed.

(** X19. When every index of the view is a position of the record vector
    (as after [ApplyFilters], whatever rows are selected), Ctrl+C never
    reads a record out of bounds.  It leaves the clipboard alone exactly
    when nothing is selected.  Otherwise it hands over the fence, a
    newline, the cleaned lines of the selected indices that are rows of the
    view, in ascending order, and the fence; the selected indices that are
    not rows of the view add nothing.  The clipboard receives this text up
    to its first NUL, hence all of it when no exported record holds a
    NUL. *)
Theorem CopySelection_in_bounds (st : LogViewerState) :
  view_in_bounds st →
  (CopySelection st = ClipboardUntouched ↔ SelectedIndices st = ∅) ∧
  (SelectedIndices st ≠ ∅ →
   ∃ rows,
     Forall2 (λ idx log, row_log st idx = Some log)
             (filter (λ idx, 0 ≤ idx < Z.of_nat (length (FilteredIndices st)))
                     (ascending (SelectedIndices st)))
             rows ∧
     CopySelection st
     = ClipboardSet
         (StdString.c_str
            (("```" +:+ String "010" EmptyString) +:+ copy_body rows +:+ "```")) ∧
     (Forall (λ log, nul_free (FullText log)) rows →
      CopySelection st
      = ClipboardSet
          (("```" +:+ String "010" EmptyString) +:+ copy_body rows +:+ "```"))).
Proof.
  intros Hview. unfold CopySelection.
  destruct (copy_lines_in_view st (ascending (SelectedIndices st))
              ("```" +:+ String "010" EmptyString) Hview) as (rows & Hrows & Hcopy).
  rewrite Hcopy. case_bool_decide as Hempty.
  - split; [done|]. by intros [].
  - split; [split; [done|by intros ?]|].
    intros _. exists rows. split; [done|]. rewrite append_assoc. split; [done|].
    intros Hnul. by rewrite c_str_clipboard_text.
Qed.

(** Rows 0 and 2 of the sample view selected together with the index 9,
    which is no row of the view. *)
Lemma CopySelection_in_bounds_witness :
  CopySelection (set_selection {[0; 2; 9]} 2 (ApplyFilters sample_state))
  = ClipboardSet
      (("```" +:+ String "010" EmptyString)
       +:+ ("LogCook: Error: bad texture" +:+ newline
            +:+ "LogCook: Error: bad texture" +:+ newline)
       +:+ "```").
Proof.
  destruct (CopySelection_in_bounds
              (set_selection {[0; 2; 9]} 2 (ApplyFilters sample_state)))
    as [_ Hset].
  - intros o Ho. vm_compute in Ho.
    repeat (apply elem_of_cons in Ho as [->|Ho];
            [vm_compute; split; [discriminate|reflexivity]|]).
    by apply elem_of_nil in Ho.
  - destruct Hset as (rows & Hrows & Hcopy & _).
    + intros Hempty.
      assert (0 ∈ (∅ : gset Z)) as Hin
        by (rewrite <- Hempty; vm_compute; reflexivity).
      by apply elem_of_empty in Hin.
    + rewrite Hcopy. clear Hcopy.
      assert (filter (λ idx, 0 ≤ idx < Z.of_nat (length (FilteredIndices
                 (set_selection {[0; 2; 9]} 2 (ApplyFilters sample_state)))))
                (ascending (SelectedIndices
                   (set_selection {[0; 2; 9]} 2 (ApplyFilters sample_state))))
              = [0; 2]) as Hin by (vm_compute; reflexivity).
      rewrite Hin in Hrows.
      apply Forall2_cons_inv_l in Hrows as (a & rows1 & Ha & Hrows & ->).
      apply Forall2_cons_inv_l in Hrows as (b & rows2 & Hb & Hrows & ->).
      apply Forall2_nil_inv_l in Hrows as ->.
      vm_compute in Ha, Hb. injection Ha as <-. injection Hb as <-.
      vm_compute. reflexivity.
Defined.

Lemma Sorted_seqZ (m n : Z) : Sorted Z.le (seqZ m n).
Proof.
  remember (Z.to_nat n) as k eqn:Hk. revert m n Hk.
  induction k as [|k IH]; intros m n Hk.
  { rewrite seqZ_nil by lia. constructor. }
  rewrite seqZ_cons by lia. constructor; [apply IH; lia|].
  destruct (Z.le_gt_cases (Z.pred n) 0).
  - rewrite seqZ_nil by lia. constructor.
  - rewrite seqZ_cons by lia. constructor. lia.
Qed.

Lemma insert_range_list_to_set (start end_ : Z) :
  insert_range start end_ = list_to_set (seqZ start (end_ - start + 1)).
Proof.
  apply set_eq. intros x.
  rewrite elem_of_insert_range, elem_of_list_to_set, elem_of_seqZ. lia.
Qed.

(** A [std::set<int>] filled with a range is visited in the order of the
    range. *)
Lemma ascending_insert_range (start end_ : Z) :
  ascending (insert_range start end_) = seqZ start (end_ - start + 1).
Proof.
  unfold ascending. rewrite insert_range_list_to_set.
  apply (Sorted_unique Z.le).
  - apply Sorted_merge_sort; apply _.
  - apply Sorted_seqZ.
  - rewrite merge_sort_Permutation. apply elements_list_to_set, NoDup_seqZ.
Qed.

(** X20. After a plain click on a drawn row, Ctrl+C hands over the fence,
    a newline, the cleaned text of that row's record with its newline, and
    the fence; the clipboard receives this text up to its first NUL, hence
    all of it when the text of the record holds no NUL. *)
Theorem CopySelection_after_click (st st' : LogViewerState) (g g' i : Z)
    (log : LogEntry) :
  ClickRow st g i false false = Some (st', g') → row_log st i = Some log →
  CopySelection st'
  = ClipboardSet
      (StdString.c_str
         (("```" +:+ String "010" EmptyString) +:+ copy_body [log] +:+ "```")) ∧
  (nul_free (FullText log) →
   CopySelection st'
   = ClipboardSet
       (("```" +:+ String "010" EmptyString)
        +:+ CleanLogLine (FullText log +:+ String "010" EmptyString)
        +:+ "```")).
Proof.
  unfold ClickRow. intros Hclick Hrow. rewrite Hrow in Hclick.
  cbn [andb] in Hclick. injection Hclick as <- <-.
  assert (CopySelection (set_selection ({[i]} ∪ ∅) i st)
          = ClipboardSet
              (StdString.c_str
                 (("```" +:+ String "010" EmptyString)
                  +:+ copy_body [log] +:+ "```"))) as Hcopy.
  { unfold CopySelection. cbn [set_selection SelectedIndices].
    rewrite (right_id_L ∅ (∪)).
    rewrite bool_decide_eq_false_2
      by (intros Hempty; apply (elem_of_empty (C := gset Z) i);
          rewrite <- Hempty; by apply elem_of_singleton).
    unfold ascending. rewrite elements_singleton.
    change (merge_sort Z.le [i]) with [i].
    rewrite (copy_lines_rows _ _ [log]) by (by repeat constructor).
    by rewrite append_assoc. }
  split; [done|]. intros Hnul.
  rewrite Hcopy, c_str_clipboard_text by (by repeat constructor).
  cbn [copy_body fold_right]. by rewrite append_nil_r.
Qed.

Lemma CopySelection_after_click_witness :
  CopySelection (set_selection ({[4]} ∪ ∅) 4 sample_state)
  = ClipboardSet (("```" +:+ String "010" EmptyString)
                  +:+ CleanLogLine ("[2] LogTemp: Warning: slow"
                                    +:+ String "010" EmptyString)
                  +:+ "```").
Proof.
  apply (proj2 (CopySelection_after_click sample_state _ (-1) 4 4
                  (header_entry (H := fnv1a) "[2] LogTemp: Warning: slow" 4)
                  ltac:(vm_compute; reflexivity) ltac:(vm_compute; reflexivity))).
  repeat constructor; discriminate.
Defined.

(** X21. After a Shift+click that selects the rows between the anchor and
    the clicked row, Ctrl+C hands over the cleaned texts of the records of
    these rows in the order of the rows, each with its newline, between
    the two fences; the clipboard receives this text up to its first NUL,
    hence all of it when no text of these records holds a NUL. *)
Theorem CopySelection_after_range (st st' : LogViewerState) (g g' i : Z)
    (rows : list LogEntry) :
  LastClickedIndex st ≠ -1 →
  ClickRow st g i false true = Some (st', g') →
  Forall2 (λ idx log, row_log st idx = Some log)
          (seqZ (Z.min (LastClickedIndex st) i)
                (Z.max (LastClickedIndex st) i - Z.min (LastClickedIndex st) i + 1))
          rows →
  CopySelection st'
  = ClipboardSet
      (StdString.c_str
         (("```" +:+ String "010" EmptyString) +:+ copy_body rows +:+ "```")) ∧
  (Forall (λ log, nul_free (FullText log)) rows →
   CopySelection st'
   = ClipboardSet
       (("```" +:+ String "010" EmptyString) +:+ copy_body rows +:+ "```")).
Proof.
  intros Hanchor Hclick Hrows. unfold ClickRow in Hclick.
  destruct (row_log st i) as [log|]; [|done].
  destruct (Z.eqb_spec (LastClickedIndex st) (-1)); [done|].
  cbn [andb negb] in Hclick. injection Hclick as <- <-.
  assert (CopySelection
            (set_selection
               (insert_range (Z.min (LastClickedIndex st) i)
                             (Z.max (LastClickedIndex st) i))
               (LastClickedIndex st) st)
          = ClipboardSet
              (StdString.c_str
                 (("```" +:+ String "010" EmptyString)
                  +:+ copy_body rows +:+ "```"))) as Hcopy.
  { unfold CopySelection. cbn [set_selection SelectedIndices].
    rewrite bool_decide_eq_false_2.
    2:{ intros Hempty.
        apply (elem_of_empty (C := gset Z) (Z.min (LastClickedIndex st) i)).
        rewrite <- Hempty. apply elem_of_insert_range. lia. }
    rewrite ascending_insert_range.
    rewrite (copy_lines_rows _ _ rows) by exact Hrows.
    by rewrite append_assoc. }
  split; [done|]. intros Hnul. by rewrite Hcopy, c_str_clipboard_text.
Qed.

Lemma CopySelection_after_range_witness :
  ∃ st',
    ClickRow (set_selection ({[3]} ∪ ∅) 3 sample_state) 3 1 false true
      = Some (st', 3) ∧
    CopySelection st'
    = ClipboardSet (("```" +:+ String "010" EmptyString)
                    +:+ ("         continuation info" +:+ newline
                         +:+ "LogCook: Error: bad texture" +:+ newline
                         +:+ "         again" +:+ newline)
                    +:+ "```").
Proof.
  set (st := set_selection ({[3]} ∪ ∅) 3 sample_state).
  exists (set_selection (insert_range 1 3) 3 st).
  assert (ClickRow st 3 1 false true
          = Some (set_selection (insert_range 1 3) 3 st, 3)) as Hclick
    by (vm_compute; reflexivity).
  split; [exact Hclick|].
  assert (∃ rows,
            Forall2 (λ idx log, row_log st idx = Some log)
                    (seqZ (Z.min (LastClickedIndex st) 1)
                          (Z.max (LastClickedIndex st) 1
                           - Z.min (LastClickedIndex st) 1 + 1)) rows ∧
            Forall (λ log, nul_free (FullText log)) rows ∧
            copy_body rows
            = "         continuation info" +:+ newline
              +:+ "LogCook: Error: bad texture" +:+ newline
              +:+ "         again" +:+ newline)
    as (rows & Hrows & Hnul & Hbody).
  { eexists. split; [|split].
    - change (seqZ _ _) with [1; 2; 3].
      repeat (econstructor; [vm_compute; reflexivity|]). constructor.
    - repeat constructor; discriminate.
    - vm_compute. reflexivity. }
  destruct (CopySelection_after_range st _ 3 3 1 rows
              ltac:(vm_compute; discriminate) Hclick Hrows) as [_ Hfull].
  rewrite (Hfull Hnul), Hbody. reflexivity.
Defined.

(** A record text with a NUL in it: the clipboard receives the export up
    to the NUL and loses the closing fence. *)
Example CopySelection_cut_at_nul :
  let st := LoadFile (H := fnv1a) g_LogState
              (Some ("[0] LogTemp: a" +:+ String "000" "b")) in
  CopySelection (set_selection {[0]} 0 st)
  = ClipboardSet ("```" +:+ newline +:+ "LogTemp: a").
Proof. vm_compute. reflexivity. Qed.
